(** * Toy robot on a square grid

    A shallow embedding of [toy_robot/utils.py], [toy_robot/grid.py] and
    [toy_robot/toy_robot.py], and the properties of the command pipeline.

    Conventions of the embedding.
    - A Python [int] is a [Z].
    - A Python [str] is a [string]: a sequence of code points below 256.
    - A raised exception is the [Raise] case of [result]; a method that
      mutates its receiver returns the receiver's new state next to its
      outcome, so the state reached when an exception escapes is kept.
    - A reference to a [Cell] object is the position of that object in the
      grid's [_cells] table, the only place where cells are created; cells
      are read and written through that table, so two references to one
      cell see the same neighbours.
    - Text written with [print] is not part of the state. *)

From Stdlib Require Import ZArith Ascii String.
From stdpp Require Import base option list countable gmap strings.

Local Open Scope Z_scope.

(** ** Exceptions *)

Inductive exn : Type :=
  | RuntimeError
  | ValueError
  | IndexError
  | KeyError
  | AttributeError
  | OSError
  | UnicodeDecodeError.

Inductive result (A : Type) : Type :=
  | Ok (a : A)
  | Raise (e : exn).
Arguments Ok {A} a.
Arguments Raise {A} e.

#[global] Instance result_ret : MRet result := fun _ a => Ok a.

#[global] Instance result_bind : MBind result := fun _ _ k m =>
  match m with
  | Ok a => k a
  | Raise e => Raise e
  end.

(** [for x in xs: body], the loop state threaded through the iterations. *)
Fixpoint for_each {A S : Type} (xs : list A) (body : A -> S -> result S)
    (s : S) : result S :=
  match xs with
  | [] => Ok s
  | x :: xs' => s' ← body x s; for_each xs' body s'
  end.

(** [range(n)]: empty when [n <= 0]. *)
Definition range (n : Z) : list Z :=
  map Z.of_nat (seq 0 (Z.to_nat n)).

(** The position that [l[i]] reads in a list of length [len]: negative
    indices count from the end, anything else out of range raises. *)
Definition py_index (len : nat) (i : Z) : result nat :=
  if (0 <=? i) && (i <? Z.of_nat len) then Ok (Z.to_nat i)
  else if (- Z.of_nat len <=? i) && (i <? 0) then Ok (Z.to_nat (Z.of_nat len + i))
  else Raise IndexError.

(** ** utils.py *)

Inductive Direction : Type :=
  | WEST
  | EAST
  | NORTH
  | SOUTH.

#[global] Instance Direction_eq_dec : EqDecision Direction.
Proof. solve_decision. Defined.

(** The enum values 1..4 of the source give the encoding. *)
Definition Direction_value (d : Direction) : positive :=
  match d with
  | WEST => 1 | EAST => 2 | NORTH => 3 | SOUTH => 4
  end%positive.

Definition Direction_of_value (p : positive) : option Direction :=
  match p with
  | 1 => Some WEST | 2 => Some EAST | 3 => Some NORTH | 4 => Some SOUTH
  | _ => None
  end%positive.

#[global] Instance Direction_countable : Countable Direction.
Proof.
  refine (Build_Countable _ _ Direction_value Direction_of_value _).
  intros []; reflexivity.
Defined.

Definition opposite (d : Direction) : Direction :=
  match d with
  | WEST => EAST
  | EAST => WEST
  | NORTH => SOUTH
  | SOUTH => NORTH
  end.

Definition counter_clockwise (d : Direction) : Direction :=
  match d with
  | WEST => SOUTH
  | SOUTH => EAST
  | EAST => NORTH
  | NORTH => WEST
  end.

Definition clockwise (d : Direction) : Direction :=
  match d with
  | WEST => NORTH
  | NORTH => EAST
  | EAST => SOUTH
  | SOUTH => WEST
  end.

(** [Direction.__members__], by name. *)
Definition Direction_members (name : string) : option Direction :=
  if String.eqb name "WEST" then Some WEST
  else if String.eqb name "EAST" then Some EAST
  else if String.eqb name "NORTH" then Some NORTH
  else if String.eqb name "SOUTH" then Some SOUTH
  else None.

Record Coordinates : Type := mkCoordinates { x : Z; y : Z }.

#[global] Instance Coordinates_eq_dec : EqDecision Coordinates.
Proof. solve_decision. Defined.

(** ** grid.py *)

(** A reference to a cell object: its row and column in [_cells]. *)
Definition CellRef : Type := (nat * nat)%type.

Module Cell.

Record t : Type := mk {
  _coordinates : Coordinates;
  _neighbours : gmap Direction CellRef
}.

Definition __init__ (x y : Z) : t :=
  {| _coordinates := mkCoordinates x y; _neighbours := ∅ |}.

(** The cell objects, as laid out by [SquareGrid._cells]. *)
Abbreviation heap := (list (list t)).

Definition deref (h : heap) (r : CellRef) : option t :=
  row ← h !! r.1; row !! r.2.

Definition update (f : t -> t) (r : CellRef) (h : heap) : heap :=
  alter (alter f r.2) r.1 h.

Definition add_neighbour (direction : Direction) (n : CellRef) (c : t) : t :=
  {| _coordinates := _coordinates c;
     _neighbours := <[direction := n]> (_neighbours c) |}.

(** [self.set_neighbour(neighbour, direction)]. The guard looks at [self]
    only; the back link of [neighbour] is written without a check. A
    reference that names no cell cannot be built by the callers below. *)
Definition set_neighbour (self neighbour : CellRef) (direction : Direction)
    (h : heap) : result heap :=
  match deref h self with
  | None => Raise IndexError
  | Some c =>
      if decide (is_Some (_neighbours c !! direction)) then Raise RuntimeError
      else
        let h1 := update (add_neighbour direction neighbour) self h in
        Ok (update (add_neighbour (opposite direction) self) neighbour h1)
  end.

Definition get_neighbour (c : t) (direction : Direction) : option CellRef :=
  _neighbours c !! direction.

Definition get_coordinates (c : t) : Coordinates :=
  mkCoordinates (x (_coordinates c)) (y (_coordinates c)).

(** [cells[i][j]] as a reference, with Python's index rules. *)
Definition getitem (h : heap) (i j : Z) : result CellRef :=
  a ← py_index (length h) i;
  match h !! a with
  | None => Raise IndexError
  | Some row => b ← py_index (length row) j; Ok (a, b)
  end.

End Cell.

Class AbstractGrid (G : Type) : Type := {
  get_next_cell_coordinates : G -> Coordinates -> Direction -> result (option Coordinates);
  is_valid_cell : G -> Coordinates -> bool
}.

Module SquareGrid.

Record t : Type := mk {
  _size : Z;
  _cells : Cell.heap
}.

(** The body of the two nested loops of [_initialize_neighbors]. *)
Definition link_cell (size x y : Z) (h : Cell.heap) : result Cell.heap :=
  cell ← Cell.getitem h x y;
  h1 ← (if x <? size - 1
        then n ← Cell.getitem h (x + 1) y; Cell.set_neighbour cell n EAST h
        else Ok h);
  if y <? size - 1
  then n ← Cell.getitem h1 x (y + 1); Cell.set_neighbour cell n NORTH h1
  else Ok h1.

Definition _initialize_neighbors (size : Z) (h : Cell.heap) : result Cell.heap :=
  for_each (range size)
    (fun x h => for_each (range size) (fun y h => link_cell size x y h) h) h.

Definition __init__ (size : Z) : result t :=
  let cells :=
    map (fun x => map (fun y => Cell.__init__ x y) (range size)) (range size) in
  h ← _initialize_neighbors size cells;
  Ok {| _size := size; _cells := h |}.

Definition get_next_cell_coordinates (g : t) (coordinates : Coordinates)
    (direction : Direction) : result (option Coordinates) :=
  r ← Cell.getitem (_cells g) (x coordinates) (y coordinates);
  match Cell.deref (_cells g) r with
  | None => Raise IndexError
  | Some c =>
      match Cell.get_neighbour c direction with
      | None => Ok None
      | Some next_cell =>
          match Cell.deref (_cells g) next_cell with
          | None => Raise IndexError
          | Some c' => Ok (Some (Cell.get_coordinates c'))
          end
      end
  end.

Definition is_valid_cell (g : t) (coordinates : Coordinates) : bool :=
  (x coordinates <? _size g) && (y coordinates <? _size g).

End SquareGrid.

#[global] Instance SquareGrid_AbstractGrid : AbstractGrid SquareGrid.t := {
  get_next_cell_coordinates := SquareGrid.get_next_cell_coordinates;
  is_valid_cell := SquareGrid.is_valid_cell
}.

(** ** Strings, as far as the parser uses them *)

Local Open Scope string_scope.

(** [s.split(sep)] for a one-character separator: every occurrence cuts,
    so the result has one field more than [s] has separators. *)
Fixpoint split (sep : ascii) (s : string) : list string :=
  match s with
  | EmptyString => [EmptyString]
  | String c s' =>
      if Ascii.eqb c sep then EmptyString :: split sep s'
      else match split sep s' with
           | [] => [String c EmptyString]
           | w :: ws => String c w :: ws
           end
  end.

(** [str.isdigit] on one code point below 256: the decimal digits and the
    superscripts U+00B2, U+00B3 and U+00B9. *)
Definition isdigit_char (c : ascii) : bool :=
  let n := N_of_ascii c in
  ((48 <=? n) && (n <=? 57) || (n =? 178) || (n =? 179) || (n =? 185))%N.

Fixpoint all_chars (p : ascii -> bool) (s : string) : bool :=
  match s with
  | EmptyString => true
  | String c s' => p c && all_chars p s'
  end.

(** [s.isdigit()]: false on the empty string. *)
Definition isdigit (s : string) : bool :=
  match s with
  | EmptyString => false
  | _ => all_chars isdigit_char s
  end.

Definition decimal_value (c : ascii) : option Z :=
  let n := N_of_ascii c in
  if ((48 <=? n) && (n <=? 57))%N then Some (Z.of_N n - 48) else None.

Fixpoint int_digits (acc : Z) (s : string) : result Z :=
  match s with
  | EmptyString => Ok acc
  | String c s' =>
      match decimal_value c with
      | Some d => int_digits (10 * acc + d) s'
      | None => Raise ValueError
      end
  end.

(** [int(s)] as the parser calls it, on a string that passed [isdigit]: no
    sign, blank or underscore reaches it, and a superscript digit is not a
    decimal literal. *)
Definition int (s : string) : result Z :=
  match s with
  | EmptyString => Raise ValueError
  | _ => int_digits 0 s
  end.

(** The longest digit string that CPython's [int] converts by default
    ([sys.int_info.default_max_str_digits]); on a longer one it raises
    [ValueError]. The [int] above is the conversion within that limit, and
    a statement that a line is accepted carries the bound. *)
Definition int_max_str_digits : nat := 4300.

Fixpoint lstrip (c : ascii) (s : string) : string :=
  match s with
  | EmptyString => EmptyString
  | String a s' => if Ascii.eqb a c then lstrip c s' else s
  end.

Fixpoint rstrip (c : ascii) (s : string) : string :=
  match s with
  | EmptyString => EmptyString
  | String a s' =>
      match rstrip c s' with
      | EmptyString => if Ascii.eqb a c then EmptyString else String a EmptyString
      | r => String a r
      end
  end.

(** [s.strip(c)] for a one-character set. *)
Definition strip (c : ascii) (s : string) : string := rstrip c (lstrip c s).

(** [l[i]] as an expression. *)
Definition list_getitem {A : Type} (l : list A) (i : Z) : result A :=
  a ← py_index (length l) i;
  match l !! a with
  | Some v => Ok v
  | None => Raise IndexError
  end.

(** ** toy_robot.py *)

Inductive RobotRotation : Type :=
  | RIGHT
  | LEFT.

(** [RobotRotation.__members__], by name. *)
Definition RobotRotation_members (name : string) : option RobotRotation :=
  if String.eqb name "RIGHT" then Some RIGHT
  else if String.eqb name "LEFT" then Some LEFT
  else None.

(** The command classes, one constructor per subclass of [RobotCommand]. *)
Inductive RobotCommand : Type :=
  | NopRobotCommand
  | PlaceRobotCommand (coordinates : Coordinates) (direction : Direction)
  | MoveRobotCommand
  | TurnRobotCommand (robot_rotation : RobotRotation)
  | ReportRobotCommand.

Record Robot (G : Type) : Type := mkRobot {
  _coordinates : option Coordinates;
  _direction : option Direction;
  _grid : G
}.
Arguments mkRobot {G} _ _ _.
Arguments _coordinates {G} _.
Arguments _direction {G} _.
Arguments _grid {G} _.

Section Robot.

Context {G : Type} `{AbstractGrid G}.

(** [Robot(grid, command_receiver)]: no position yet. *)
Definition Robot_init (grid : G) : Robot G := mkRobot None None grid.

Definition direction (robot : Robot G) : option Direction := _direction robot.

Definition set_direction (robot : Robot G) (d : Direction) : Robot G :=
  mkRobot (_coordinates robot) (Some d) (_grid robot).

(** The getter hands out a copy. *)
Definition coordinates (robot : Robot G) : option Coordinates :=
  match _coordinates robot with
  | None => None
  | Some c => Some (mkCoordinates (x c) (y c))
  end.

(** The setter stores a copy. *)
Definition set_coordinates (robot : Robot G) (c : Coordinates) : Robot G :=
  mkRobot (Some (mkCoordinates (x c) (y c))) (_direction robot) (_grid robot).

Definition is_on_grid (robot : Robot G) : bool :=
  bool_decide (_coordinates robot ≠ None) && bool_decide (_direction robot ≠ None).

Definition get_grid (robot : Robot G) : G := _grid robot.

(** [command.execute(robot)]: the robot afterwards, and what the call
    returned or raised. The branches are the [execute] methods of the
    five command classes. After the [is_on_grid] guard both fields are
    present; the [AttributeError] branches are what Python would do
    without it. *)
Definition execute (command : RobotCommand) (robot : Robot G)
    : Robot G * result bool :=
  match command with
  | NopRobotCommand => (robot, Ok true)
  | PlaceRobotCommand c d =>
      if is_valid_cell (get_grid robot) c
      then (set_direction (set_coordinates robot c) d, Ok true)
      else (robot, Ok false)
  | MoveRobotCommand =>
      if negb (is_on_grid robot) then (robot, Ok false)
      else
        match coordinates robot, direction robot with
        | Some c, Some d =>
            match get_next_cell_coordinates (get_grid robot) c d with
            | Raise e => (robot, Raise e)
            | Ok None => (robot, Ok false)
            | Ok (Some new_coordinates) =>
                (set_coordinates robot new_coordinates, Ok true)
            end
        | _, _ => (robot, Raise AttributeError)
        end
  | TurnRobotCommand robot_rotation =>
      if negb (is_on_grid robot) then (robot, Ok false)
      else
        match direction robot with
        | Some d =>
            match robot_rotation with
            | RIGHT => (set_direction robot (clockwise d), Ok true)
            | LEFT => (set_direction robot (counter_clockwise d), Ok true)
            end
        | None => (robot, Raise AttributeError)
        end
  | ReportRobotCommand =>
      if negb (is_on_grid robot) then (robot, Ok false)
      else (robot, Ok true)
  end.

End Robot.

(** *** RobotApiHandler *)

Definition _generate_place_command (data : list string) : result RobotCommand :=
  if negb (length data =? 2)%nat then Raise RuntimeError
  else
    d1 ← list_getitem data 1;
    let params := split "," d1 in
    p0 ← list_getitem params 0;
    if negb (isdigit p0) then Raise ValueError
    else
      p1 ← list_getitem params 1;
      if negb (isdigit p1) then Raise ValueError
      else
        p2 ← list_getitem params 2;
        match Direction_members p2 with
        | None => Raise ValueError
        | Some d =>
            cx ← int p0;
            cy ← int p1;
            Ok (PlaceRobotCommand (mkCoordinates cx cy) d)
        end.

Definition _generate_turn_command (data : list string) : result RobotCommand :=
  if negb (length data =? 1)%nat then Raise RuntimeError
  else
    d0 ← list_getitem data 0;
    match RobotRotation_members d0 with
    | None => Raise RuntimeError
    | Some r => Ok (TurnRobotCommand r)
    end.

Definition _generate_move_command (data : list string) : result RobotCommand :=
  if negb (length data =? 1)%nat then Raise RuntimeError
  else Ok MoveRobotCommand.

Definition _generate_report_command (data : list string) : result RobotCommand :=
  if negb (length data =? 1)%nat then Raise RuntimeError
  else Ok ReportRobotCommand.

(** The table built by [_initialise]. *)
Definition api_generator_map : gmap string (list string -> result RobotCommand) :=
  <["PLACE" := _generate_place_command]>
  (<["MOVE" := _generate_move_command]>
  (<["LEFT" := _generate_turn_command]>
  (<["RIGHT" := _generate_turn_command]>
  (<["REPORT" := _generate_report_command]> ∅)))).

(** The body of the [try] block of [generate_command]. *)
Definition generate_command_body (command : string) : result RobotCommand :=
  let data := split " " command in
  d0 ← list_getitem data 0;
  match api_generator_map !! d0 with
  | None => Raise RuntimeError
  | Some command_generator => command_generator data
  end.

(** [except Exception]: whatever the body raised, the caller gets a
    [NopRobotCommand]. *)
Definition generate_command (command : string) : RobotCommand :=
  match generate_command_body command with
  | Ok c => c
  | Raise _ => NopRobotCommand
  end.

(** *** StubFileCommandReceiver *)

Record StubFileCommandReceiver : Type := mkReceiver {
  _commands : list string
}.

Definition newline : ascii := ascii_of_nat 10.

(** [recv()]: the next command, or [None] when the lines are used up, and
    the receiver afterwards. [generate_command] never returns [None], so
    the [continue] of the source loop is never taken. *)
Definition recv (rc : StubFileCommandReceiver)
    : option RobotCommand * StubFileCommandReceiver :=
  match _commands rc with
  | [] => (None, rc)
  | line :: rest =>
      (Some (generate_command (strip newline line)), mkReceiver rest)
  end.

Section Spin.

Context {G : Type} `{AbstractGrid G}.

(** [Robot.spin()], by recursion on the lines the receiver still holds
    (see [spin_lines_recv] for the loop as written). An exception raised
    by a command leaves the loop. *)
Fixpoint spin_lines (lines : list string) (robot : Robot G)
    : Robot G * result unit :=
  match lines with
  | [] => (robot, Ok tt)
  | line :: rest =>
      match execute (generate_command (strip newline line)) robot with
      | (robot', Ok _) => spin_lines rest robot'
      | (robot', Raise e) => (robot', Raise e)
      end
  end.

Definition spin (rc : StubFileCommandReceiver) (robot : Robot G)
    : Robot G * result unit :=
  spin_lines (_commands rc) robot.

End Spin.

(** ** Notions used in the statements *)

(** What the neighbour table of the cell at row [i], column [j] holds in
    direction [d] on a lattice of side [N], once the cells marked by [PE]
    have been linked east and the cells marked by [PN] north. *)
Definition expected (N : nat) (PE PN : nat -> nat -> bool) (i j : nat) (d : Direction)
    : option CellRef :=
  match d with
  | EAST => if PE i j && (Datatypes.S i <? N)%nat then Some (Datatypes.S i, j) else None
  | NORTH => if PN i j && (Datatypes.S j <? N)%nat then Some (i, Datatypes.S j) else None
  | WEST => match i with
            | O => None
            | Datatypes.S i' => if PE i' j then Some (i', j) else None
            end
  | SOUTH => match j with
             | O => None
             | Datatypes.S j' => if PN i j' then Some (i, j') else None
             end
  end.

(** Every cell of the lattice sits at its place in the table, stores its
    own coordinates and holds the expected links. *)
Definition linked (N : nat) (PE PN : nat -> nat -> bool) (h : Cell.heap) : Prop :=
  forall i j, (i < N)%nat -> (j < N)%nat ->
    exists c, Cell.deref h (i, j) = Some c
      /\ Cell._coordinates c = mkCoordinates (Z.of_nat i) (Z.of_nat j)
      /\ forall d, Cell._neighbours c !! d = expected N PE PN i j d.

(** One more cell handled. *)
Definition mark (P : nat -> nat -> bool) (i j : nat) : nat -> nat -> bool :=
  fun a b => P a b || ((a =? i) && (b =? j))%nat.

(** The cells handled before the loops reach row [x], column [y]. *)
Definition visited (x y : nat) : nat -> nat -> bool :=
  fun a b => ((a <? x) || ((a =? x) && (b <? y)))%nat.

(** The coordinates stored in the cell a reference names. *)
Definition coordinates_of_ref (r : CellRef) : Coordinates :=
  mkCoordinates (Z.of_nat r.1) (Z.of_nat r.2).

(** [sep.join(fields)]. *)
Fixpoint join (sep : ascii) (fields : list string) : string :=
  match fields with
  | [] => EmptyString
  | [w] => w
  | w :: ws => w ++ String sep (join sep ws)
  end.

(** The separator does not occur in [s]. *)
Definition free_of (sep : ascii) (s : string) : bool :=
  all_chars (fun a => negb (Ascii.eqb a sep)) s.

(** The decimal literals of the command grammar: digits [0]..[9] only, at
    least one. *)
Definition is_ascii_digit (c : ascii) : bool :=
  ((48 <=? N_of_ascii c) && (N_of_ascii c <=? 57))%N.

Definition is_decimal_literal (s : string) : Prop :=
  s <> EmptyString /\ all_chars is_ascii_digit s = true.

(** [Direction.name]. *)
Definition Direction_name (d : Direction) : string :=
  match d with
  | WEST => "WEST"
  | EAST => "EAST"
  | NORTH => "NORTH"
  | SOUTH => "SOUTH"
  end.

(** Not placed at all, or placed on a cell of the grid of side [n]. *)
Definition within (n : Z) (robot : Robot SquareGrid.t) : Prop :=
  (_coordinates robot = None /\ _direction robot = None)
  \/ (exists c d, _coordinates robot = Some c /\ _direction robot = Some d
        /\ 0 <= x c < n /\ 0 <= y c < n).

(** ** Text written by the commands *)

Local Open Scope Z_scope.

Definition digit_char (d : Z) : ascii := ascii_of_N (Z.to_N (48 + d)).

(** The decimal digits of [n >= 0] in front of [acc], last digit first;
    [fuel] bounds the number of digits. *)
Fixpoint str_digits (fuel : nat) (n : Z) (acc : string) : string :=
  match fuel with
  | O => acc
  | Datatypes.S fuel' =>
      let acc' := String (digit_char (n mod 10)) acc in
      if n <? 10 then acc' else str_digits fuel' (n / 10) acc'
  end.

(** How an [int] is formatted by [str] and inside an f-string. A number
    below [2^k] has at most [k] decimal digits. *)
Definition str (n : Z) : string :=
  if n <? 0
  then String "-" (str_digits (Datatypes.S (Z.to_nat (Z.log2 (- n)))) (- n) EmptyString)
  else str_digits (Datatypes.S (Z.to_nat (Z.log2 n))) n EmptyString.

(** The [repr] that [@dataclass] gives to [Coordinates]. *)
Definition Coordinates_repr (c : Coordinates) : string :=
  "Coordinates(x=" ++ str (x c) ++ ", y=" ++ str (y c) ++ ")".

Section Stdout.

Context {G : Type} `{AbstractGrid G}.

(** The lines that [command.execute(robot)] prints, one per [print]. *)
Definition execute_stdout (command : RobotCommand) (robot : Robot G)
    : list string :=
  match command with
  | NopRobotCommand => []
  | PlaceRobotCommand c d =>
      if is_valid_cell (get_grid robot) c then []
      else ["Cell with coordinates " ++ Coordinates_repr c ++ " not valid."]
  | MoveRobotCommand =>
      if negb (is_on_grid robot)
      then ["Robot not yet placed on grid. Move command not possible."]
      else []
  | TurnRobotCommand _ =>
      if negb (is_on_grid robot)
      then ["Robot not yet placed on grid. Turn command not possible."]
      else []
  | ReportRobotCommand =>
      if negb (is_on_grid robot) then ["Robot not yet placed on grid."]
      else
        match coordinates robot, direction robot with
        | Some c, Some d =>
            ["Output: " ++ str (x c) ++ "," ++ str (y c) ++ "," ++ Direction_name d]
        | _, _ => []
        end
  end.

End Stdout.

(** ** Equality of cells *)

(** [Cell.__eq__]: two cells are equal when their coordinates are. *)
Definition Cell_eq (a b : Cell.t) : bool :=
  (x (Cell._coordinates a) =? x (Cell._coordinates b))
  && (y (Cell._coordinates a) =? y (Cell._coordinates b)).

(** ** SimpleRobotOnGridFactory and robot_app.py *)

(** [StubFileCommandReceiver(file)]: the receiver holds the lines read
    from the file; an exception raised while opening or reading it
    escapes. *)
Definition StubFileCommandReceiver_init (read : result (list string))
    : result StubFileCommandReceiver :=
  lines ← read;
  Ok (mkReceiver lines).

Module SimpleRobotOnGridFactory.

Record t : Type := mk {
  _robot : option (Robot SquareGrid.t);
  _grid : option SquareGrid.t;
  _command_receiver : option StubFileCommandReceiver
}.

Definition __init__ : t := mk None None None.

Definition add_square_grid (self : t) (grid_size : Z) : result t :=
  g ← SquareGrid.__init__ grid_size;
  Ok (mk (_robot self) (Some g) (_command_receiver self)).

(** [add_stub_command_receiver(file)]. [read] is what opening [file] and
    [f.readlines()] come to: the lines, or the exception that [open] or
    [readlines] raises, which leaves the constructor of the receiver and
    this method. *)
Definition add_stub_command_receiver (self : t) (read : result (list string))
    : result t :=
  rc ← StubFileCommandReceiver_init read;
  Ok (mk (_robot self) (_grid self) (Some rc)).

(** The robot, and the receiver it holds. *)
Definition create_robot (self : t)
    : result (Robot SquareGrid.t * StubFileCommandReceiver) :=
  match _grid self with
  | None => Raise RuntimeError
  | Some g =>
      match _command_receiver self with
      | None => Raise RuntimeError
      | Some rc => Ok (Robot_init g, rc)
      end
  end.

End SimpleRobotOnGridFactory.

(** The [__main__] block of [robot_app.py]: [argv] is [sys.argv] and
    [read] what opening and reading the file named by [argv[1]] come to.
    The result is the robot when the program ends, or the exception that
    ends it. *)
Definition robot_app (argv : list string) (read : result (list string))
    : result (Robot SquareGrid.t) :=
  if negb (length argv =? 2)%nat then Raise RuntimeError
  else
    f1 ← SimpleRobotOnGridFactory.add_square_grid
           SimpleRobotOnGridFactory.__init__ 5;
    f2 ← SimpleRobotOnGridFactory.add_stub_command_receiver f1 read;
    rr ← SimpleRobotOnGridFactory.create_robot f2;
    match spin rr.2 rr.1 with
    | (robot, Ok _) => Ok robot
    | (_, Raise e) => Raise e
    end.

(** * Properties *)

Local Open Scope Z_scope.

(** ** Direction algebra *)

(** C6: the rotations form a 4-cycle: four clockwise turns give the
    direction back, [clockwise] and [counter_clockwise] undo each other in
    both orders, [opposite] is two clockwise turns, and [opposite] is an
    involution. *)
Theorem direction_rotation_algebra (d : Direction) :
  clockwise (clockwise (clockwise (clockwise d))) = d
  /\ counter_clockwise (clockwise d) = d
  /\ clockwise (counter_clockwise d) = d
  /\ opposite d = clockwise (clockwise d)
  /\ opposite (opposite d) = d.
Proof. destruct d; repeat split. Qed.

(** ** Command execution against any grid *)

Section Commands.

Context {G : Type} `{AbstractGrid G}.

Lemma is_on_grid_true (robot : Robot G) :
  is_on_grid robot = true <->
  exists c d, _coordinates robot = Some c /\ _direction robot = Some d.
Proof.
  unfold is_on_grid. destruct robot as [[c|] [d|] g]; simpl; split;
    try discriminate; try (intros (? & ? & ? & ?); discriminate); eauto.
Qed.

Lemma coordinates_copy (robot : Robot G) :
  coordinates robot = _coordinates robot.
Proof. unfold coordinates. destruct (_coordinates robot) as [[]|]; reflexivity. Qed.

Lemma set_coordinates_copy (robot : Robot G) (c : Coordinates) :
  set_coordinates robot c = mkRobot (Some c) (_direction robot) (_grid robot).
Proof. destruct c; reflexivity. Qed.

(** C4: a Place command returns true exactly when the grid accepts the
    cell; it then stores the given coordinates and direction, and when it
    returns false the robot is as it was. It never raises. *)
Theorem place_execute_spec (robot : Robot G) (c : Coordinates) (d : Direction) :
  let '(robot', out) := execute (PlaceRobotCommand c d) robot in
  (out = Ok true <-> is_valid_cell (get_grid robot) c = true)
  /\ (out = Ok true ->
      coordinates robot' = Some c /\ direction robot' = Some d)
  /\ (out = Ok false -> robot' = robot)
  /\ (out = Ok true \/ out = Ok false).
Proof.
  simpl. destruct (is_valid_cell (get_grid robot) c) eqn:E.
  - repeat split; auto; try discriminate. destruct c; reflexivity.
  - repeat split; auto; try discriminate.
Qed.

(** C3: a Move command returns true exactly when the robot is placed and
    the grid reports a neighbour in the robot's direction; the robot then
    stands on that neighbour, facing as before; when it returns false
    neither field has changed. *)
Theorem move_execute_spec (robot : Robot G) :
  let '(robot', out) := execute MoveRobotCommand robot in
  (out = Ok true <->
     exists c d c', _coordinates robot = Some c /\ _direction robot = Some d
       /\ get_next_cell_coordinates (get_grid robot) c d = Ok (Some c'))
  /\ (forall c d c', _coordinates robot = Some c -> _direction robot = Some d ->
        get_next_cell_coordinates (get_grid robot) c d = Ok (Some c') ->
        out = Ok true /\ _coordinates robot' = Some c' /\ _direction robot' = Some d)
  /\ (out = Ok false -> robot' = robot).
Proof.
  unfold execute. rewrite coordinates_copy. unfold direction, is_on_grid, get_grid.
  destruct robot as [[c|] [d|] g]; simpl.
  2-4: repeat split; try discriminate; try (intros (? & ? & ? & ? & ? & ?); discriminate).
  destruct (get_next_cell_coordinates g c d) as [[c'|]|e] eqn:E.
  - rewrite set_coordinates_copy. simpl. repeat split; try discriminate.
    + intros _. exists c, d, c'. auto.
    + congruence.
    + congruence.
  - repeat split; try discriminate; try congruence.
    intros (? & ? & ? & ? & ? & ?). congruence.
  - repeat split; try discriminate; try congruence.
    intros (? & ? & ? & ? & ? & ?). congruence.
Qed.

(** C10: a robot that is on the grid stays on the grid, whatever command
    is executed and whatever the command returns or raises. *)
Theorem is_on_grid_monotone (robot : Robot G) (command : RobotCommand) :
  is_on_grid robot = true ->
  is_on_grid (fst (execute command robot)) = true.
Proof.
  intros Hon. pose proof Hon as Hon'.
  apply is_on_grid_true in Hon' as (c & d & Hc & Hd).
  destruct command as [|c0 d0| |[]|]; unfold execute; rewrite ?Hon; simpl; auto.
  - destruct (is_valid_cell (get_grid robot) c0); auto.
  - rewrite coordinates_copy, Hc. unfold direction. rewrite Hd.
    destruct (get_next_cell_coordinates (get_grid robot) c d) as [[c'|]|e]; simpl; auto.
    unfold is_on_grid; simpl. rewrite Hd. reflexivity.
  - unfold direction. rewrite Hd. unfold is_on_grid; simpl. rewrite Hc. reflexivity.
  - unfold direction. rewrite Hd. unfold is_on_grid; simpl. rewrite Hc. reflexivity.
Qed.

End Commands.

(** ** Construction of the square grid *)

Lemma for_each_seq_inv {S : Type} (I : nat -> S -> Prop)
    (body : Z -> S -> result S) (m a : nat) (s : S) :
  I a s ->
  (forall k s, (a <= k < a + m)%nat -> I k s ->
     exists s', body (Z.of_nat k) s = Ok s' /\ I (Datatypes.S k) s') ->
  exists s', for_each (map Z.of_nat (seq a m)) body s = Ok s' /\ I (a + m)%nat s'.
Proof.
  revert a s. induction m as [|m IH]; intros a s Ha Hstep; simpl.
  - exists s. rewrite Nat.add_0_r. auto.
  - destruct (Hstep a s) as (s1 & Hb & Hs1); [lia | assumption |].
    rewrite Hb. simpl.
    destruct (IH (Datatypes.S a) s1) as (s2 & Hf & Hs2); [assumption | |].
    + intros k s0 Hk. apply Hstep. lia.
    + exists s2. split; [exact Hf |].
      replace (a + Datatypes.S m)%nat with (Datatypes.S a + m)%nat by lia. exact Hs2.
Qed.

Lemma for_each_range_inv {S : Type} (I : nat -> S -> Prop)
    (body : Z -> S -> result S) (n : Z) (s : S) :
  I 0%nat s ->
  (forall k s, (k < Z.to_nat n)%nat -> I k s ->
     exists s', body (Z.of_nat k) s = Ok s' /\ I (Datatypes.S k) s') ->
  exists s', for_each (range n) body s = Ok s' /\ I (Z.to_nat n) s'.
Proof.
  intros H0 Hstep. unfold range.
  apply (for_each_seq_inv I body (Z.to_nat n) 0 s H0).
  intros k s0 Hk. apply Hstep. lia.
Qed.

Lemma py_index_in_range (len : nat) (i : Z) :
  0 <= i < Z.of_nat len -> py_index len i = Ok (Z.to_nat i).
Proof.
  intros Hi. unfold py_index.
  destruct (0 <=? i) eqn:E1; [|lia]. destruct (i <? Z.of_nat len) eqn:E2; [|lia].
  reflexivity.
Qed.

Lemma deref_update (f : Cell.t -> Cell.t) (r r' : CellRef) (h : Cell.heap) :
  Cell.deref (Cell.update f r h) r'
  = (if decide (r = r') then f else id) <$> Cell.deref h r'.
Proof.
  destruct r as [i j], r' as [i' j']. unfold Cell.deref, Cell.update.
  cbn [fst snd]. rewrite list_lookup_alter.
  destruct (decide (i = i')) as [->|Hi].
  - destruct (h !! i') as [row|]; cbn [fmap option_fmap option_map mbind option_bind]; [|reflexivity].
    rewrite list_lookup_alter.
    destruct (decide (j = j')) as [->|Hj].
    + rewrite decide_True by reflexivity. reflexivity.
    + rewrite decide_False by congruence. destruct (row !! j'); reflexivity.
  - rewrite decide_False by congruence.
    destruct (h !! i') as [row|]; cbn [mbind option_bind]; [destruct (row !! j')|]; reflexivity.
Qed.

Lemma neighbours_add_neighbour (d d' : Direction) (n : CellRef) (c : Cell.t) :
  Cell._neighbours (Cell.add_neighbour d n c) !! d'
  = if decide (d = d') then Some n else Cell._neighbours c !! d'.
Proof. unfold Cell.add_neighbour. simpl. apply lookup_insert. Qed.

Section Linking.

(** The side of the lattice. *)
Variable N : nat.

Lemma linked_ext (PE PN PE' PN' : nat -> nat -> bool) (h : Cell.heap) :
  (forall i j, (i < N)%nat -> (j < N)%nat -> PE' i j = PE i j /\ PN' i j = PN i j) ->
  linked N PE PN h -> linked N PE' PN' h.
Proof.
  intros Hext Hl i j Hi Hj. destruct (Hl i j Hi Hj) as (c & Hc & Hxy & Hn).
  exists c. split; [exact Hc|]. split; [exact Hxy|].
  intros d. rewrite Hn. destruct d; simpl.
  - destruct i as [|i']; [reflexivity|].
    destruct (Hext i' j) as [-> _]; [lia | lia | reflexivity].
  - destruct (Hext i j) as [-> _]; [lia | lia | reflexivity].
  - destruct (Hext i j) as [_ ->]; [lia | lia | reflexivity].
  - destruct j as [|j']; [reflexivity|].
    destruct (Hext i j') as [_ ->]; [lia | lia | reflexivity].
Qed.

Lemma linked_getitem (PE PN : nat -> nat -> bool) (h : Cell.heap) (cx cy : Z) :
  linked N PE PN h -> 0 <= cx < Z.of_nat N -> 0 <= cy < Z.of_nat N ->
  Cell.getitem h cx cy = Ok (Z.to_nat cx, Z.to_nat cy).
Proof.
  intros Hl Hx Hy.
  destruct (Hl (Z.to_nat cx) (Z.to_nat cy)) as (c & Hc & _); [lia | lia |].
  unfold Cell.deref in Hc. cbn [fst snd] in Hc.
  destruct (h !! Z.to_nat cx) as [row|] eqn:Hrow; [|discriminate].
  cbn in Hc.
  pose proof (lookup_lt_Some _ _ _ Hrow) as Hlen.
  pose proof (lookup_lt_Some _ _ _ Hc) as Hlen'.
  unfold Cell.getitem.
  rewrite py_index_in_range by lia. cbn. rewrite Hrow.
  rewrite py_index_in_range by lia. reflexivity.
Qed.

Lemma set_neighbour_fresh (h : Cell.heap) (self n : CellRef) (d : Direction)
    (c : Cell.t) :
  Cell.deref h self = Some c -> Cell._neighbours c !! d = None ->
  exists h', Cell.set_neighbour self n d h = Ok h'
    /\ forall r, Cell.deref h' r =
         (if decide (n = r) then Cell.add_neighbour (opposite d) self else id)
         <$> ((if decide (self = r) then Cell.add_neighbour d n else id)
              <$> Cell.deref h r).
Proof.
  intros Hc Hd. unfold Cell.set_neighbour. rewrite Hc, Hd.
  rewrite decide_False by (intros [? ?]; discriminate).
  eexists. split; [reflexivity|]. intros r. rewrite !deref_update. reflexivity.
Qed.

Ltac bool_cases :=
  repeat match goal with
  | |- context [(?a =? ?b)%nat] => destruct (Nat.eqb_spec a b)
  | |- context [(?a <? ?b)%nat] => destruct (Nat.ltb_spec a b)
  | |- context [decide ?P] => destruct (decide P)
  end.

Lemma mark_unfold (P : nat -> nat -> bool) (i j a b : nat) :
  mark P i j a b = P a b || ((a =? i) && (b =? j))%nat.
Proof. reflexivity. Qed.

(** Compares the table of one cell before and after a step, direction by
    direction. *)
Ltac expected_cases Hfresh :=
  let d := fresh "d" in
  intros d; destruct d; cbn [expected];
  repeat match goal with
  | |- context [match ?n with O => _ | Datatypes.S _ => _ end] => destruct n
  end;
  rewrite ?mark_unfold; bool_cases; simplify_eq; try lia;
  rewrite ?Hfresh, ?orb_false_r, ?orb_true_r, ?andb_false_r, ?andb_true_r;
  try reflexivity; try congruence; try lia.

Lemma link_east (PE PN : nat -> nat -> bool) (h : Cell.heap) (i j : nat) :
  linked N PE PN h -> (i < N)%nat -> (j < N)%nat -> PE i j = false ->
  exists h',
    (if Z.of_nat i <? Z.of_nat N - 1
     then n ← Cell.getitem h (Z.of_nat i + 1) (Z.of_nat j);
          Cell.set_neighbour (i, j) n EAST h
     else Ok h) = Ok h'
    /\ linked N (mark PE i j) PN h'.
Proof.
  intros Hl Hi Hj Hfresh.
  destruct (Z.of_nat i <? Z.of_nat N - 1) eqn:Hedge.
  - apply Z.ltb_lt in Hedge.
    rewrite (linked_getitem PE PN) by (assumption || lia).
    replace (Z.to_nat (Z.of_nat i + 1)) with (Datatypes.S i) by lia.
    rewrite Nat2Z.id. cbn [mbind result_bind].
    destruct (Hl i j Hi Hj) as (c & Hc & _ & Hn).
    destruct (set_neighbour_fresh h (i, j) (Datatypes.S i, j) EAST c Hc)
      as (h' & Hset & Hh').
    { rewrite Hn. simpl. rewrite Hfresh. reflexivity. }
    exists h'. split; [exact Hset|].
    intros a b Ha Hb. destruct (Hl a b Ha Hb) as (c0 & Hc0 & Hxy & Hn0).
    rewrite Hh', Hc0. cbn [fmap option_fmap option_map].
    eexists. split; [reflexivity|]. split.
    + repeat case_decide; simpl; exact Hxy.
    + repeat case_decide; simplify_eq; cbn [id opposite]; intros d;
        rewrite ?neighbours_add_neighbour, Hn0; revert d;
        expected_cases Hfresh.
  - apply Z.ltb_ge in Hedge. exists h. split; [reflexivity|].
    intros a b Ha Hb. destruct (Hl a b Ha Hb) as (c0 & Hc0 & Hxy & Hn0).
    exists c0. split; [exact Hc0|]. split; [exact Hxy|].
    intros d. rewrite Hn0. revert d. expected_cases Hfresh.
Qed.

Lemma link_north (PE PN : nat -> nat -> bool) (h : Cell.heap) (i j : nat) :
  linked N PE PN h -> (i < N)%nat -> (j < N)%nat -> PN i j = false ->
  exists h',
    (if Z.of_nat j <? Z.of_nat N - 1
     then n ← Cell.getitem h (Z.of_nat i) (Z.of_nat j + 1);
          Cell.set_neighbour (i, j) n NORTH h
     else Ok h) = Ok h'
    /\ linked N PE (mark PN i j) h'.
Proof.
  intros Hl Hi Hj Hfresh.
  destruct (Z.of_nat j <? Z.of_nat N - 1) eqn:Hedge.
  - apply Z.ltb_lt in Hedge.
    rewrite (linked_getitem PE PN) by (assumption || lia).
    replace (Z.to_nat (Z.of_nat j + 1)) with (Datatypes.S j) by lia.
    rewrite Nat2Z.id. cbn [mbind result_bind].
    destruct (Hl i j Hi Hj) as (c & Hc & _ & Hn).
    destruct (set_neighbour_fresh h (i, j) (i, Datatypes.S j) NORTH c Hc)
      as (h' & Hset & Hh').
    { rewrite Hn. simpl. rewrite Hfresh. reflexivity. }
    exists h'. split; [exact Hset|].
    intros a b Ha Hb. destruct (Hl a b Ha Hb) as (c0 & Hc0 & Hxy & Hn0).
    rewrite Hh', Hc0. cbn [fmap option_fmap option_map].
    eexists. split; [reflexivity|]. split.
    + repeat case_decide; simpl; exact Hxy.
    + repeat case_decide; simplify_eq; cbn [id opposite]; intros d;
        rewrite ?neighbours_add_neighbour, Hn0; revert d;
        expected_cases Hfresh.
  - apply Z.ltb_ge in Hedge. exists h. split; [reflexivity|].
    intros a b Ha Hb. destruct (Hl a b Ha Hb) as (c0 & Hc0 & Hxy & Hn0).
    exists c0. split; [exact Hc0|]. split; [exact Hxy|].
    intros d. rewrite Hn0. revert d. expected_cases Hfresh.
Qed.

(** One pass of the loop body links the cell east and north. *)
Lemma link_cell_linked (P : nat -> nat -> bool) (h : Cell.heap) (i j : nat) :
  linked N P P h -> (i < N)%nat -> (j < N)%nat -> P i j = false ->
  exists h',
    SquareGrid.link_cell (Z.of_nat N) (Z.of_nat i) (Z.of_nat j) h = Ok h'
    /\ linked N (mark P i j) (mark P i j) h'.
Proof.
  intros Hl Hi Hj Hfresh. unfold SquareGrid.link_cell.
  rewrite (linked_getitem P P h (Z.of_nat i) (Z.of_nat j)) by (assumption || lia).
  rewrite !Nat2Z.id. cbn [mbind result_bind].
  destruct (link_east P P h i j Hl Hi Hj Hfresh) as (h1 & -> & Hl1).
  destruct (link_north (mark P i j) P h1 i j Hl1 Hi Hj Hfresh) as (h2 & H2 & Hl2).
  exists h2. split; assumption.
Qed.

End Linking.

Ltac nat_bool_cases :=
  repeat match goal with
  | |- context [(?a =? ?b)%nat] => destruct (Nat.eqb_spec a b)
  | |- context [(?a <? ?b)%nat] => destruct (Nat.ltb_spec a b)
  end; simpl; try reflexivity; try lia.

Lemma range_lookup (n : Z) (i : nat) :
  (i < Z.to_nat n)%nat -> range n !! i = Some (Z.of_nat i).
Proof.
  intros Hi. unfold range. rewrite list_lookup_fmap.
  rewrite lookup_seq_lt by assumption. reflexivity.
Qed.

Lemma initial_cells_linked (n : Z) :
  linked (Z.to_nat n) (fun _ _ => false) (fun _ _ => false)
    (map (fun x => map (fun y => Cell.__init__ x y) (range n)) (range n)).
Proof.
  intros i j Hi Hj. exists (Cell.__init__ (Z.of_nat i) (Z.of_nat j)).
  split; [|split].
  - unfold Cell.deref. cbn [fst snd].
    change (map ?f ?l) with (f <$> l).
    rewrite list_lookup_fmap, (range_lookup n i Hi). cbn.
    change (map ?f ?l) with (f <$> l).
    rewrite list_lookup_fmap, (range_lookup n j Hj). reflexivity.
  - reflexivity.
  - intros d. cbn. rewrite lookup_empty.
    destruct d; cbn; try reflexivity; [destruct i | destruct j]; reflexivity.
Qed.

Lemma initialize_neighbors_linked (n : Z) (h : Cell.heap) :
  0 <= n ->
  linked (Z.to_nat n) (fun _ _ => false) (fun _ _ => false) h ->
  exists h', SquareGrid._initialize_neighbors n h = Ok h'
    /\ linked (Z.to_nat n) (fun _ _ => true) (fun _ _ => true) h'.
Proof.
  intros Hn H0. unfold SquareGrid._initialize_neighbors.
  set (N := Z.to_nat n) in *.
  destruct (for_each_range_inv (fun k h => linked N (visited k 0) (visited k 0) h)
              (fun x h => for_each (range n)
                 (fun y h => SquareGrid.link_cell n x y h) h) n h)
    as (h' & Hrun & Hl).
  - refine (linked_ext N _ _ _ _ h _ H0).
    intros i j _ _. unfold visited. split; nat_bool_cases.
  - intros k s Hk Hs.
    destruct (for_each_range_inv (fun y h => linked N (visited k y) (visited k y) h)
                (fun y h => SquareGrid.link_cell n (Z.of_nat k) y h) n s Hs)
      as (s' & Hrun & Hl).
    + intros y s0 Hy Hs0.
      destruct (link_cell_linked N (visited k y) s0 k y Hs0 Hk Hy) as (s1 & Hs1 & Hl1).
      { unfold visited. nat_bool_cases. }
      exists s1. split.
      * rewrite <- Hs1. unfold N. rewrite Z2Nat.id by assumption. reflexivity.
      * refine (linked_ext N _ _ _ _ s1 _ Hl1).
        intros a b _ _. unfold mark, visited. split; nat_bool_cases.
    + exists s'. split; [exact Hrun|].
      refine (linked_ext N _ _ _ _ s' _ Hl).
      intros a b Ha Hb. fold N in Hb. unfold visited. split; nat_bool_cases.
  - exists h'. split; [exact Hrun|].
    refine (linked_ext N _ _ _ _ h' _ Hl).
    intros a b Ha Hb. fold N in Ha. unfold visited. split; nat_bool_cases.
Qed.

(** The constructor returns, and every cell of the grid it returns is linked
    in all four directions. *)
Lemma SquareGrid_init_linked (n : Z) :
  0 <= n ->
  exists g, SquareGrid.__init__ n = Ok g
    /\ SquareGrid._size g = n
    /\ linked (Z.to_nat n) (fun _ _ => true) (fun _ _ => true) (SquareGrid._cells g).
Proof.
  intros Hn. unfold SquareGrid.__init__.
  destruct (initialize_neighbors_linked n _ Hn (initial_cells_linked n))
    as (h' & -> & Hl).
  cbn. eexists. split; [reflexivity|]. split; [reflexivity|]. exact Hl.
Qed.

(** On a fully linked grid a neighbour query reads the table of the cell
    and reports the coordinates stored in the cell it finds there. *)
Lemma linked_get_next (N : nat) (g : SquareGrid.t) (cx cy : Z) (d : Direction) :
  linked N (fun _ _ => true) (fun _ _ => true) (SquareGrid._cells g) ->
  0 <= cx < Z.of_nat N -> 0 <= cy < Z.of_nat N ->
  SquareGrid.get_next_cell_coordinates g (mkCoordinates cx cy) d
  = Ok (coordinates_of_ref <$>
          expected N (fun _ _ => true) (fun _ _ => true) (Z.to_nat cx) (Z.to_nat cy) d).
Proof.
  intros Hl Hx Hy. unfold SquareGrid.get_next_cell_coordinates. cbn [x y].
  rewrite (linked_getitem N _ _ _ cx cy Hl Hx Hy). cbn [mbind result_bind].
  destruct (Hl (Z.to_nat cx) (Z.to_nat cy)) as (c & -> & _ & Hn); [lia | lia |].
  unfold Cell.get_neighbour. rewrite Hn.
  destruct (expected N _ _ (Z.to_nat cx) (Z.to_nat cy) d) as [[a b]|] eqn:He;
    [|reflexivity].
  assert (Hab : (a < N)%nat /\ (b < N)%nat).
  { destruct d; cbn [expected] in He.
    - destruct (Z.to_nat cx) eqn:E; [discriminate|]. cbn in He. simplify_eq. lia.
    - cbn [andb] in He. destruct (Nat.ltb_spec (Datatypes.S (Z.to_nat cx)) N);
        simplify_eq. lia.
    - cbn [andb] in He. destruct (Nat.ltb_spec (Datatypes.S (Z.to_nat cy)) N);
        simplify_eq. lia.
    - destruct (Z.to_nat cy) eqn:E; [discriminate|]. cbn in He. simplify_eq. lia. }
  destruct (Hl a b) as (c' & -> & Hxy & _); [lia | lia |].
  unfold Cell.get_coordinates. rewrite Hxy. reflexivity.
Qed.

(** C7: on the grid built for a size [n > 0], from a cell inside the grid,
    the neighbour to the east is [(x+1, y)] unless [x+1 = n], to the west
    [(x-1, y)] unless [x = 0], to the north [(x, y+1)] unless [y+1 = n] and
    to the south [(x, y-1)] unless [y = 0]; at those edges the query
    returns [None]. *)
Theorem get_next_cell_coordinates_lattice (n cx cy : Z) :
  0 < n -> 0 <= cx < n -> 0 <= cy < n ->
  exists g, SquareGrid.__init__ n = Ok g
    /\ get_next_cell_coordinates g (mkCoordinates cx cy) EAST
       = Ok (if cx + 1 <? n then Some (mkCoordinates (cx + 1) cy) else None)
    /\ get_next_cell_coordinates g (mkCoordinates cx cy) WEST
       = Ok (if 0 <? cx then Some (mkCoordinates (cx - 1) cy) else None)
    /\ get_next_cell_coordinates g (mkCoordinates cx cy) NORTH
       = Ok (if cy + 1 <? n then Some (mkCoordinates cx (cy + 1)) else None)
    /\ get_next_cell_coordinates g (mkCoordinates cx cy) SOUTH
       = Ok (if 0 <? cy then Some (mkCoordinates cx (cy - 1)) else None).
Proof.
  intros Hn Hx Hy.
  destruct (SquareGrid_init_linked n) as (g & Hg & _ & Hl); [lia|].
  exists g. split; [exact Hg|].
  cbn [get_next_cell_coordinates SquareGrid_AbstractGrid].
  rewrite !(linked_get_next (Z.to_nat n) g cx cy) by (assumption || lia).
  cbn [expected andb].
  repeat split; f_equal.
  - destruct (Nat.ltb_spec (Datatypes.S (Z.to_nat cx)) (Z.to_nat n)),
      (Z.ltb_spec (cx + 1) n); try lia; [|reflexivity].
    cbn. unfold coordinates_of_ref. cbn [fst snd]. f_equal. f_equal; lia.
  - destruct (Z.to_nat cx) eqn:E, (Z.ltb_spec 0 cx); try lia; [reflexivity|].
    cbn. unfold coordinates_of_ref. cbn [fst snd]. f_equal. f_equal; lia.
  - destruct (Nat.ltb_spec (Datatypes.S (Z.to_nat cy)) (Z.to_nat n)),
      (Z.ltb_spec (cy + 1) n); try lia; [|reflexivity].
    cbn. unfold coordinates_of_ref. cbn [fst snd]. f_equal. f_equal; lia.
  - destruct (Z.to_nat cy) eqn:E, (Z.ltb_spec 0 cy); try lia; [reflexivity|].
    cbn. unfold coordinates_of_ref. cbn [fst snd]. f_equal. f_equal; lia.
Qed.

Lemma get_next_cell_coordinates_lattice_witness :
  exists g, SquareGrid.__init__ 5 = Ok g
    /\ get_next_cell_coordinates g (mkCoordinates 4 0) EAST
       = Ok (if 4 + 1 <? 5 then Some (mkCoordinates (4 + 1) 0) else None)
    /\ get_next_cell_coordinates g (mkCoordinates 4 0) WEST
       = Ok (if 0 <? 4 then Some (mkCoordinates (4 - 1) 0) else None)
    /\ get_next_cell_coordinates g (mkCoordinates 4 0) NORTH
       = Ok (if 0 + 1 <? 5 then Some (mkCoordinates 4 (0 + 1)) else None)
    /\ get_next_cell_coordinates g (mkCoordinates 4 0) SOUTH
       = Ok (if 0 <? 0 then Some (mkCoordinates 4 (0 - 1)) else None).
Proof. apply (get_next_cell_coordinates_lattice 5 4 0); lia. Defined.

(** A neighbour found from a cell inside the grid lies inside the grid and
    links back in the opposite direction. *)
Lemma linked_neighbour (N : nat) (g : SquareGrid.t) (c c' : Coordinates)
    (d : Direction) :
  linked N (fun _ _ => true) (fun _ _ => true) (SquareGrid._cells g) ->
  0 <= x c < Z.of_nat N -> 0 <= y c < Z.of_nat N ->
  SquareGrid.get_next_cell_coordinates g c d = Ok (Some c') ->
  (0 <= x c' < Z.of_nat N /\ 0 <= y c' < Z.of_nat N)
  /\ SquareGrid.get_next_cell_coordinates g c' (opposite d) = Ok (Some c).
Proof.
  intros Hl Hx Hy. destruct c as [cx cy]. cbn [x y] in Hx, Hy.
  rewrite (linked_get_next N g cx cy d Hl Hx Hy). intros Hnext.
  assert (Hc' : exists a b, c' = mkCoordinates (Z.of_nat a) (Z.of_nat b)
            /\ expected N (fun _ _ => true) (fun _ _ => true)
                 (Z.to_nat cx) (Z.to_nat cy) d = Some (a, b)).
  { destruct (expected N _ _ (Z.to_nat cx) (Z.to_nat cy) d) as [[a b]|];
      [|discriminate].
    exists a, b. cbn [fmap option_fmap option_map] in Hnext.
    injection Hnext as <-. split; reflexivity. }
  destruct Hc' as (a & b & -> & He). clear Hnext.
  assert (Hab : (a < N)%nat /\ (b < N)%nat
            /\ expected N (fun _ _ => true) (fun _ _ => true) a b (opposite d)
               = Some (Z.to_nat cx, Z.to_nat cy)).
  { destruct d; cbn [expected opposite andb] in He |- *.
    - destruct (Z.to_nat cx) eqn:E; [discriminate|]. simplify_eq.
      destruct (Nat.ltb_spec (Datatypes.S a) N); [|lia]. repeat split; lia.
    - destruct (Nat.ltb_spec (Datatypes.S (Z.to_nat cx)) N); simplify_eq.
      repeat split; lia.
    - destruct (Nat.ltb_spec (Datatypes.S (Z.to_nat cy)) N); simplify_eq.
      repeat split; lia.
    - destruct (Z.to_nat cy) eqn:E; [discriminate|]. simplify_eq.
      destruct (Nat.ltb_spec (Datatypes.S b) N); [|lia]. repeat split; lia. }
  destruct Hab as (Ha & Hb & Hback). cbn [x y]. split; [lia|].
  rewrite (linked_get_next N g) by (assumption || lia).
  rewrite !Nat2Z.id, Hback. cbn. unfold coordinates_of_ref. cbn [fst snd].
  rewrite !Z2Nat.id by lia. reflexivity.
Qed.

(** C8: on the grid built for a size [n > 0], whenever a cell inside the
    grid reports a neighbour in a direction, that neighbour reports the
    cell in the opposite direction. *)
Theorem link_symmetry (n : Z) :
  0 < n ->
  exists g, SquareGrid.__init__ n = Ok g
    /\ forall c d c', 0 <= x c < n -> 0 <= y c < n ->
         get_next_cell_coordinates g c d = Ok (Some c') ->
         get_next_cell_coordinates g c' (opposite d) = Ok (Some c).
Proof.
  intros Hn. destruct (SquareGrid_init_linked n) as (g & Hg & _ & Hl); [lia|].
  exists g. split; [exact Hg|]. intros c d c' Hx Hy Hnext.
  apply (linked_neighbour (Z.to_nat n) g c c' d Hl); [lia | lia | exact Hnext].
Qed.

Lemma link_symmetry_witness :
  exists g, SquareGrid.__init__ 5 = Ok g
    /\ forall c d c', 0 <= x c < 5 -> 0 <= y c < 5 ->
         get_next_cell_coordinates g c d = Ok (Some c') ->
         get_next_cell_coordinates g c' (opposite d) = Ok (Some c).
Proof. apply (link_symmetry 5). lia. Defined.

(** ** Valid cells *)

Lemma is_valid_cell_iff (g : SquareGrid.t) (c : Coordinates) :
  is_valid_cell g c = true <-> x c < SquareGrid._size g /\ y c < SquareGrid._size g.
Proof.
  cbn. unfold SquareGrid.is_valid_cell. rewrite andb_true_iff, !Z.ltb_lt. tauto.
Qed.

(** With coordinates that are not negative, the test is the membership in
    the square. *)
Lemma is_valid_cell_nonneg (n cx cy : Z) :
  0 < n -> 0 <= cx -> 0 <= cy ->
  exists g, SquareGrid.__init__ n = Ok g
    /\ (is_valid_cell g (mkCoordinates cx cy) = true
        <-> 0 <= cx < n /\ 0 <= cy < n).
Proof.
  intros Hn Hx Hy.
  destruct (SquareGrid_init_linked n) as (g & Hg & Hsize & _); [lia|].
  exists g. split; [exact Hg|]. rewrite is_valid_cell_iff, Hsize. cbn. lia.
Qed.

(** C1 at a negative coordinate: the grid of size 5 accepts the cell
    [(-1, 0)], which is outside [0 <= x < 5]. The test has no lower
    bound. *)
Theorem is_valid_cell_negative :
  exists g, SquareGrid.__init__ 5 = Ok g
    /\ is_valid_cell g (mkCoordinates (-1) 0) = true
    /\ ~ (0 <= x (mkCoordinates (-1) 0) < 5).
Proof.
  destruct (SquareGrid_init_linked 5) as (g & Hg & Hsize & _); [lia|].
  exists g. split; [exact Hg|]. split.
  - apply is_valid_cell_iff. rewrite Hsize. cbn. lia.
  - cbn. lia.
Qed.

(** ** The parser *)

Lemma split_not_nil (sep : ascii) (s : string) : split sep s <> [].
Proof.
  destruct s as [|c s]; simpl; [discriminate|].
  destruct (Ascii.eqb c sep); [discriminate|].
  destruct (split sep s); discriminate.
Qed.

Lemma join_split (sep : ascii) (s : string) : join sep (split sep s) = s.
Proof.
  induction s as [|c s IH]; [reflexivity|]. simpl.
  destruct (Ascii.eqb_spec c sep) as [->|Hc].
  - pose proof (split_not_nil sep s) as Hne.
    destruct (split sep s) as [|w ws]; [congruence|].
    change (join sep (EmptyString :: w :: ws))
      with (String sep (join sep (w :: ws))).
    rewrite IH. reflexivity.
  - pose proof (split_not_nil sep s) as Hne.
    destruct (split sep s) as [|w ws]; [congruence|].
    destruct ws as [|w' ws]; simpl in *; rewrite <- IH; reflexivity.
Qed.

Lemma split_free_of (sep : ascii) (s : string) :
  Forall (fun w => free_of sep w = true) (split sep s).
Proof.
  induction s as [|c s IH]; simpl.
  - constructor; [reflexivity | constructor].
  - destruct (Ascii.eqb c sep) eqn:Hc.
    + constructor; [reflexivity | exact IH].
    + destruct (split sep s) as [|w ws].
      { constructor; [unfold free_of; simpl; rewrite Hc; reflexivity | constructor]. }
      inversion IH; subst. constructor; [|assumption].
      unfold free_of in *. simpl. rewrite Hc. assumption.
Qed.

Lemma list_getitem_nat {A : Type} (l : list A) (k : nat) (v : A) :
  list_getitem l (Z.of_nat k) = Ok v -> l !! k = Some v.
Proof.
  unfold list_getitem, py_index.
  destruct (Z.leb_spec 0 (Z.of_nat k)); [|lia].
  destruct (Z.ltb_spec (Z.of_nat k) (Z.of_nat (length l))); cbn [andb].
  - rewrite Nat2Z.id. cbn. destruct (l !! k); [congruence | discriminate].
  - destruct (Z.ltb_spec (Z.of_nat k) 0); [lia|].
    rewrite andb_false_r. discriminate.
Qed.

Lemma int_digits_decimal (s : string) (acc v : Z) :
  int_digits acc s = Ok v -> 0 <= acc ->
  all_chars is_ascii_digit s = true /\ 0 <= v.
Proof.
  revert acc. induction s as [|c s IH]; simpl; intros acc Hv Hacc.
  - split; [reflexivity | congruence].
  - unfold decimal_value in Hv. fold (is_ascii_digit c) in Hv.
    destruct (is_ascii_digit c) eqn:Hc; [|discriminate].
    assert (48 <= Z.of_N (N_of_ascii c)).
    { unfold is_ascii_digit in Hc. apply andb_true_iff in Hc as [Hlo _].
      apply N.leb_le in Hlo. lia. }
    apply IH in Hv; [tauto | lia].
Qed.

Lemma int_decimal (s : string) (v : Z) :
  int s = Ok v -> is_decimal_literal s /\ 0 <= v.
Proof.
  unfold int, is_decimal_literal. destruct s as [|c s]; [discriminate|].
  intros Hv. apply int_digits_decimal in Hv; [|lia].
  split; [split; [discriminate | tauto] | tauto].
Qed.

Lemma Direction_members_name (name : string) (d : Direction) :
  Direction_members name = Some d -> name = Direction_name d.
Proof.
  unfold Direction_members.
  repeat match goal with
  | |- context [String.eqb ?a ?b] => destruct (String.eqb_spec a b)
  end; intros Hd; simplify_eq; reflexivity.
Qed.

Lemma RobotRotation_members_name (name : string) (r : RobotRotation) :
  RobotRotation_members name = Some r ->
  (name = "RIGHT" /\ r = RIGHT) \/ (name = "LEFT" /\ r = LEFT).
Proof.
  unfold RobotRotation_members.
  repeat match goal with
  | |- context [String.eqb ?a ?b] => destruct (String.eqb_spec a b)
  end; intros Hr; simplify_eq; auto.
Qed.

Lemma api_generator_map_lookup (k : string)
    (g : list string -> result RobotCommand) :
  api_generator_map !! k = Some g ->
  (k = "PLACE" /\ g = _generate_place_command)
  \/ (k = "MOVE" /\ g = _generate_move_command)
  \/ (k = "LEFT" /\ g = _generate_turn_command)
  \/ (k = "RIGHT" /\ g = _generate_turn_command)
  \/ (k = "REPORT" /\ g = _generate_report_command).
Proof.
  unfold api_generator_map. rewrite !lookup_insert_Some, lookup_empty.
  intros Hk. repeat (destruct Hk as [[<- <-]|[_ Hk]]; [tauto|]). discriminate.
Qed.

Lemma length_one {A : Type} (l : list A) (v : A) :
  (length l =? 1)%nat = true -> l !! 0%nat = Some v -> l = [v].
Proof.
  destruct l as [|a [|b l]]; simpl; try discriminate. congruence.
Qed.

(** What the place generator has checked when it returns. *)
Lemma _generate_place_command_inv (data : list string) (c : RobotCommand) :
  _generate_place_command data = Ok c ->
  exists kw r fx fy fd rest vx vy d,
    data = [kw; r]
    /\ split "," r = fx :: fy :: fd :: rest
    /\ int fx = Ok vx /\ int fy = Ok vy
    /\ Direction_members fd = Some d
    /\ c = PlaceRobotCommand (mkCoordinates vx vy) d.
Proof.
  unfold _generate_place_command.
  destruct (length data =? 2)%nat eqn:Hlen; [|discriminate]. cbn [negb].
  destruct data as [|kw [|r [|z data]]]; try discriminate.
  change (list_getitem [kw; r] 1) with (Ok (A:=string) r). cbn [mbind result_bind].
  destruct (list_getitem (split "," r) 0) as [fx|] eqn:H0; [|discriminate].
  cbn [mbind result_bind].
  destruct (isdigit fx); [|discriminate]. cbn [negb].
  destruct (list_getitem (split "," r) 1) as [fy|] eqn:H1; [|discriminate].
  cbn [mbind result_bind].
  destruct (isdigit fy); [|discriminate]. cbn [negb].
  destruct (list_getitem (split "," r) 2) as [fd|] eqn:H2; [|discriminate].
  cbn [mbind result_bind].
  destruct (Direction_members fd) as [d|] eqn:Hd; [|discriminate].
  destruct (int fx) as [vx|] eqn:Hx; [|discriminate]. cbn [mbind result_bind].
  destruct (int fy) as [vy|] eqn:Hy; [|discriminate]. cbn [mbind result_bind].
  intros Hc. injection Hc as <-.
  apply (list_getitem_nat _ 0%nat) in H0.
  apply (list_getitem_nat _ 1%nat) in H1.
  apply (list_getitem_nat _ 2%nat) in H2.
  destruct (split "," r) as [|a [|b [|e rest]]] eqn:Hs; try discriminate.
  cbn in H0, H1, H2. simplify_eq.
  exists kw, r, fx, fy, fd, rest, vx, vy, d. repeat split; (assumption || reflexivity).
Qed.

(** What the body of [generate_command] has checked when it returns. *)
Lemma generate_command_body_inv (s : string) (c : RobotCommand) :
  generate_command_body s = Ok c ->
  (s = "MOVE" /\ c = MoveRobotCommand)
  \/ (s = "LEFT" /\ c = TurnRobotCommand LEFT)
  \/ (s = "RIGHT" /\ c = TurnRobotCommand RIGHT)
  \/ (s = "REPORT" /\ c = ReportRobotCommand)
  \/ (exists r, split " " s = ["PLACE"; r]
        /\ _generate_place_command ["PLACE"; r] = Ok c).
Proof.
  unfold generate_command_body.
  destruct (list_getitem (split " " s) 0) as [d0|] eqn:H0; [|discriminate].
  cbn [mbind result_bind].
  apply (list_getitem_nat _ 0%nat) in H0.
  destruct (api_generator_map !! d0) as [g|] eqn:Hg; [|discriminate].
  apply api_generator_map_lookup in Hg.
  pose proof (join_split " " s) as Hjoin.
  destruct Hg as [[-> ->]|[[-> ->]|[[-> ->]|[[-> ->]|[-> ->]]]]].
  - intros Hc. pose proof Hc as Hc'.
    apply _generate_place_command_inv in Hc' as (kw & r & _ & _ & _ & _ & _ & _ & _ & Hdata & _).
    rewrite Hdata in H0. cbn in H0. simplify_eq.
    right; right; right; right. exists r. rewrite <- Hdata. auto.
  - unfold _generate_move_command.
    destruct (length (split " " s) =? 1)%nat eqn:Hlen; [|discriminate].
    rewrite (length_one _ _ Hlen H0) in Hjoin. cbn in Hjoin.
    intros Hc. cbn in Hc. left. split; congruence.
  - unfold _generate_turn_command.
    destruct (length (split " " s) =? 1)%nat eqn:Hlen; [|discriminate].
    rewrite (length_one _ _ Hlen H0) in Hjoin |- *. cbn in Hjoin.
    intros Hc. vm_compute in Hc. right; left. split; congruence.
  - unfold _generate_turn_command.
    destruct (length (split " " s) =? 1)%nat eqn:Hlen; [|discriminate].
    rewrite (length_one _ _ Hlen H0) in Hjoin |- *. cbn in Hjoin.
    intros Hc. vm_compute in Hc. right; right; left. split; congruence.
  - unfold _generate_report_command.
    destruct (length (split " " s) =? 1)%nat eqn:Hlen; [|discriminate].
    rewrite (length_one _ _ Hlen H0) in Hjoin. cbn in Hjoin.
    intros Hc. cbn in Hc. right; right; right; left. split; congruence.
Qed.

Lemma api_generator_map_unknown (k : string) :
  k <> "PLACE" -> k <> "MOVE" -> k <> "LEFT" -> k <> "RIGHT" -> k <> "REPORT" ->
  api_generator_map !! k = None.
Proof.
  intros. unfold api_generator_map.
  rewrite !lookup_insert_ne by congruence. apply lookup_empty.
Qed.

Lemma split_two (sep : ascii) (s k r : string) :
  split sep s = [k; r] -> s = k ++ String sep r /\ free_of sep r = true.
Proof.
  intros Hs. pose proof (join_split sep s) as Hj.
  pose proof (split_free_of sep s) as Hf. rewrite Hs in Hj, Hf.
  split; [symmetry; exact Hj|].
  inversion Hf as [|? ? _ Hf']; subst. inversion Hf'; subst. assumption.
Qed.

(** On lines of code points below 256: a result other than
    [NopRobotCommand] arises only from the bare keywords [MOVE], [LEFT],
    [RIGHT], [REPORT], or from [PLACE], one space and one token without
    spaces whose first three comma-separated fields are a decimal literal,
    a decimal literal and the name of a direction; what follows the third
    field is not looked at. The empty string and a line whose first word is
    none of the five keywords give [NopRobotCommand]. *)
Lemma generate_command_shape (s : string) :
  (generate_command s = NopRobotCommand
      \/ (s = "MOVE" /\ generate_command s = MoveRobotCommand)
      \/ (s = "LEFT" /\ generate_command s = TurnRobotCommand LEFT)
      \/ (s = "RIGHT" /\ generate_command s = TurnRobotCommand RIGHT)
      \/ (s = "REPORT" /\ generate_command s = ReportRobotCommand)
      \/ (exists r fx fy fd rest vx vy d,
            s = "PLACE " ++ r /\ free_of " " r = true
            /\ split "," r = fx :: fy :: fd :: rest
            /\ is_decimal_literal fx /\ is_decimal_literal fy
            /\ int fx = Ok vx /\ int fy = Ok vy
            /\ fd = Direction_name d
            /\ generate_command s = PlaceRobotCommand (mkCoordinates vx vy) d))
  /\ generate_command "" = NopRobotCommand
  /\ (forall kw rest, split " " s = kw :: rest ->
        kw <> "PLACE" -> kw <> "MOVE" -> kw <> "LEFT" -> kw <> "RIGHT" ->
        kw <> "REPORT" -> generate_command s = NopRobotCommand).
Proof.
  split; [|split].
  - unfold generate_command.
    destruct (generate_command_body s) as [c|e] eqn:Hbody; [|left; reflexivity].
    apply generate_command_body_inv in Hbody.
    destruct Hbody as [[-> ->]|[[-> ->]|[[-> ->]|[[-> ->]|(r & Hs & Hc)]]]].
    + right; left. auto.
    + right; right; left. auto.
    + right; right; right; left. auto.
    + right; right; right; right; left. auto.
    + right; right; right; right; right.
      apply split_two in Hs as [-> Hfree].
      apply _generate_place_command_inv in Hc
        as (kw & r' & fx & fy & fd & rest & vx & vy & d & Hd & Hsp & Hx & Hy & Hm & ->).
      injection Hd as _ <-.
      exists r, fx, fy, fd, rest, vx, vy, d.
      pose proof (int_decimal _ _ Hx) as [? _].
      pose proof (int_decimal _ _ Hy) as [? _].
      apply Direction_members_name in Hm.
      repeat match goal with |- _ /\ _ => split end; (assumption || reflexivity).
  - vm_compute. reflexivity.
  - intros kw rest Hs H1 H2 H3 H4 H5.
    unfold generate_command, generate_command_body. rewrite Hs.
    replace (list_getitem (kw :: rest) 0) with (Ok (A:=string) kw).
    + cbn [mbind result_bind].
      rewrite api_generator_map_unknown by assumption. reflexivity.
    + unfold list_getitem, py_index. cbn [length].
      destruct (Z.ltb_spec 0 (Z.of_nat (Datatypes.S (length rest)))); [|lia].
      reflexivity.
Qed.

(** C5 at a line that is none of the five command forms: [PLACE] with a
    remainder of four comma-separated fields, where the form has three. The
    parser does not return [NopRobotCommand] for it. *)
Theorem generate_command_extra_field_not_nop :
  split " " "PLACE 1,2,NORTH,EAST" = ["PLACE"; "1,2,NORTH,EAST"]
  /\ (forall fx fy fd, split "," "1,2,NORTH,EAST" <> [fx; fy; fd])
  /\ generate_command "PLACE 1,2,NORTH,EAST" <> NopRobotCommand.
Proof.
  split; [reflexivity|]. split.
  - intros fx fy fd. vm_compute. discriminate.
  - vm_compute. discriminate.
Qed.

(** C2 at a remainder of four fields: the line is parsed as a Place
    command, the fourth field being ignored. *)
Theorem place_extra_field_accepted :
  generate_command "PLACE 1,2,NORTH,EAST"
    = PlaceRobotCommand (mkCoordinates 1 2) NORTH
  /\ length (split "," "1,2,NORTH,EAST") = 4%nat.
Proof. split; vm_compute; reflexivity. Qed.

(** ** The robot on the square grid *)

(** A Place command built by the parser has coordinates that are not
    negative. *)
Lemma generate_command_place_nonneg (s : string) (c : Coordinates)
    (d : Direction) :
  generate_command s = PlaceRobotCommand c d -> 0 <= x c /\ 0 <= y c.
Proof.
  unfold generate_command.
  destruct (generate_command_body s) as [c0|e] eqn:Hbody; [|discriminate].
  intros ->. apply generate_command_body_inv in Hbody.
  destruct Hbody as [[_ ?]|[[_ ?]|[[_ ?]|[[_ ?]|(r & _ & Hc)]]]]; try discriminate.
  apply _generate_place_command_inv in Hc
    as (_ & _ & fx & fy & _ & _ & vx & vy & d' & _ & _ & Hx & Hy & _ & Hc).
  injection Hc as -> _. cbn [x y].
  apply int_decimal in Hx as [_ ?]. apply int_decimal in Hy as [_ ?]. lia.
Qed.

Section Loop.

Context {G : Type} `{AbstractGrid G}.

(** The loop of [spin] as written: ask the receiver, stop on [None],
    execute otherwise. *)
Lemma spin_lines_recv (rc : StubFileCommandReceiver) (robot : Robot G) :
  spin rc robot =
  match recv rc with
  | (None, _) => (robot, Ok tt)
  | (Some command, rc') =>
      match execute command robot with
      | (robot', Ok _) => spin rc' robot'
      | (robot', Raise e) => (robot', Raise e)
      end
  end.
Proof. destruct rc as [[|line rest]]; reflexivity. Qed.

(** Running a prefix of the lines gives the state in which the rest of
    the lines is run. *)
Lemma spin_lines_app (l1 l2 : list string) (robot : Robot G) :
  spin_lines (l1 ++ l2) robot =
  match spin_lines l1 robot with
  | (robot', Ok _) => spin_lines l2 robot'
  | (robot', Raise e) => (robot', Raise e)
  end.
Proof.
  revert robot. induction l1 as [|line l1 IH]; intros robot; [reflexivity|].
  simpl. destruct (execute _ robot) as [robot' [b|e]]; [apply IH | reflexivity].
Qed.

(** Move, Turn and Report return false on a robot that is not placed,
    and leave it as it is. *)
Lemma execute_not_on_grid (robot : Robot G) :
  is_on_grid robot = false ->
  execute MoveRobotCommand robot = (robot, Ok false)
  /\ (forall r, execute (TurnRobotCommand r) robot = (robot, Ok false))
  /\ execute ReportRobotCommand robot = (robot, Ok false).
Proof. intros Hoff. unfold execute. rewrite Hoff. auto. Qed.

End Loop.

Lemma execute_parsed_within (n : Z) (line : string) (robot : Robot SquareGrid.t) :
  0 <= n ->
  linked (Z.to_nat n) (fun _ _ => true) (fun _ _ => true)
    (SquareGrid._cells (_grid robot)) ->
  SquareGrid._size (_grid robot) = n ->
  within n robot ->
  exists robot' b, execute (generate_command line) robot = (robot', Ok b)
    /\ _grid robot' = _grid robot /\ within n robot'.
Proof.
  intros Hn Hl Hsize Hin.
  destruct (generate_command line) as [|c d| |r|] eqn:Hcmd.
  - exists robot, true. auto.
  - apply generate_command_place_nonneg in Hcmd as [Hx Hy].
    cbn [execute]. unfold get_grid.
    destruct (is_valid_cell (_grid robot) c) eqn:Hv.
    + apply is_valid_cell_iff in Hv. rewrite Hsize in Hv.
      eexists _, true. split; [reflexivity|]. split; [reflexivity|].
      right. exists c, d. destruct c; cbn in *. repeat split; (reflexivity || lia).
    + exists robot, false. auto.
  - destruct Hin as [[Hc Hd]|(c & d & Hc & Hd & Hx & Hy)].
    + exists robot, false. unfold execute, is_on_grid. rewrite Hc, Hd. cbn.
      repeat split; [left; auto].
    + unfold execute, is_on_grid. rewrite coordinates_copy. unfold direction, get_grid.
      rewrite Hc, Hd. cbn [bool_decide negb andb].
      rewrite !bool_decide_eq_true_2 by discriminate. cbn [negb andb].
      cbn [get_next_cell_coordinates SquareGrid_AbstractGrid].
      destruct (SquareGrid.get_next_cell_coordinates (_grid robot) c d)
        as [[c'|]|e] eqn:Hnext.
      * destruct (linked_neighbour (Z.to_nat n) _ c c' d Hl) as [[Hx' Hy'] _];
          [lia | lia | exact Hnext |].
        eexists _, true. split; [reflexivity|]. split; [reflexivity|].
        right. exists c', d. rewrite set_coordinates_copy. cbn.
        repeat split; (reflexivity || assumption || lia).
      * exists robot, false. repeat split. right. exists c, d. auto.
      * exfalso. destruct c as [cx cy]. cbn [x y] in Hx, Hy.
        rewrite (linked_get_next (Z.to_nat n) _ cx cy d Hl) in Hnext by lia.
        discriminate.
  - destruct Hin as [[Hc Hd]|(c & d & Hc & Hd & Hx & Hy)].
    + exists robot, false. unfold execute, is_on_grid. rewrite Hc, Hd. cbn.
      repeat split; [left; auto].
    + unfold execute, is_on_grid, direction. rewrite Hc, Hd.
      rewrite !bool_decide_eq_true_2 by discriminate. cbn [negb andb].
      destruct r; eexists _, true; (split; [reflexivity|]); (split; [reflexivity|]);
        right; eexists c, _; cbn; rewrite Hc; auto.
  - exists robot. unfold execute. destruct (negb (is_on_grid robot)); eauto.
Qed.

Lemma spin_lines_within (n : Z) (lines : list string) (robot : Robot SquareGrid.t) :
  0 <= n ->
  linked (Z.to_nat n) (fun _ _ => true) (fun _ _ => true)
    (SquareGrid._cells (_grid robot)) ->
  SquareGrid._size (_grid robot) = n ->
  within n robot ->
  exists robot', spin_lines lines robot = (robot', Ok tt) /\ within n robot'.
Proof.
  intros Hn. revert robot. induction lines as [|line lines IH];
    intros robot Hl Hsize Hin.
  - exists robot. auto.
  - destruct (execute_parsed_within n (strip newline line) robot Hn Hl Hsize Hin)
      as (robot1 & b & Hexec & Hgrid & Hin1).
    cbn [spin_lines]. rewrite Hexec. apply IH; [rewrite Hgrid .. |]; assumption.
Qed.

(** C9: on the grid built for a size [n > 0], a robot that starts unplaced
    and is driven by lines of text is, after every prefix of the lines,
    either unplaced or on a cell with [0 <= x < n] and [0 <= y < n]; no
    command raises, and in a state where the robot is not placed Move, Turn
    and Report return false and change nothing. *)
Theorem robot_stays_on_grid (n : Z) (lines : list string) :
  0 < n ->
  exists g, SquareGrid.__init__ n = Ok g
    /\ forall k, exists robot,
         spin (mkReceiver (take k lines)) (Robot_init g) = (robot, Ok tt)
         /\ within n robot
         /\ (is_on_grid robot = false ->
              execute MoveRobotCommand robot = (robot, Ok false)
              /\ (forall r, execute (TurnRobotCommand r) robot = (robot, Ok false))
              /\ execute ReportRobotCommand robot = (robot, Ok false)).
Proof.
  intros Hn. destruct (SquareGrid_init_linked n) as (g & Hg & Hsize & Hl); [lia|].
  exists g. split; [exact Hg|]. intros k.
  destruct (spin_lines_within n (take k lines) (Robot_init g)) as (robot & Hrun & Hin);
    [lia | exact Hl | exact Hsize | left; split; reflexivity |].
  exists robot. split; [exact Hrun|]. split; [exact Hin|].
  apply execute_not_on_grid.
Qed.

Lemma robot_stays_on_grid_witness :
  exists g, SquareGrid.__init__ 5 = Ok g
    /\ forall k, exists robot,
         spin (mkReceiver (take k ["PLACE 4,4,NORTH"; "MOVE"; "LEFT"; "MOVE"; "REPORT"]))
           (Robot_init g) = (robot, Ok tt)
         /\ within 5 robot
         /\ (is_on_grid robot = false ->
              execute MoveRobotCommand robot = (robot, Ok false)
              /\ (forall r, execute (TurnRobotCommand r) robot = (robot, Ok false))
              /\ execute ReportRobotCommand robot = (robot, Ok false)).
Proof.
  apply (robot_stays_on_grid 5 ["PLACE 4,4,NORTH"; "MOVE"; "LEFT"; "MOVE"; "REPORT"]).
  lia.
Defined.

Lemma is_on_grid_monotone_witness :
  exists g, SquareGrid.__init__ 5 = Ok g
    /\ is_on_grid (mkRobot (Some (mkCoordinates 4 4)) (Some NORTH) g) = true
    /\ is_on_grid
         (fst (execute MoveRobotCommand
                 (mkRobot (Some (mkCoordinates 4 4)) (Some NORTH) g))) = true.
Proof.
  destruct (SquareGrid_init_linked 5) as (g & Hg & _); [lia|].
  exists g. split; [exact Hg|]. split; [reflexivity|].
  apply (is_on_grid_monotone (mkRobot (Some (mkCoordinates 4 4)) (Some NORTH) g)
           MoveRobotCommand).
  reflexivity.
Defined.


(** * Further properties of the commands, the grid and the parser *)

(** ** Commands against any grid *)

Section MoreCommands.

Context {G : Type} `{AbstractGrid G}.

(** X1: a Turn command returns true exactly when the robot is placed; it
    then replaces the direction by its clockwise (RIGHT) or counter
    clockwise (LEFT) successor and keeps coordinates and grid; when it
    returns false the robot is as it was. It never raises. *)
Theorem turn_execute_spec (robot : Robot G) (r : RobotRotation) :
  let '(robot', out) := execute (TurnRobotCommand r) robot in
  (out = Ok true <-> is_on_grid robot = true)
  /\ (forall d, is_on_grid robot = true -> _direction robot = Some d ->
        _direction robot'
          = Some (match r with RIGHT => clockwise d | LEFT => counter_clockwise d end)
        /\ _coordinates robot' = _coordinates robot
        /\ _grid robot' = _grid robot)
  /\ (out = Ok false -> robot' = robot)
  /\ (out = Ok true \/ out = Ok false).
Proof.
  unfold execute, is_on_grid, direction.
  destruct robot as [[c|] [d|] g]; cbn; try (repeat split; auto; discriminate).
  destruct r; cbn; repeat split; auto; try discriminate; congruence.
Qed.

(** X2: on a placed robot, a left turn followed by a right turn, a right
    turn followed by a left turn, and four right turns each give back the
    robot as it was. *)
Theorem turn_compositions (robot : Robot G) :
  is_on_grid robot = true ->
  let turn r rb := fst (execute (TurnRobotCommand r) rb) in
  turn RIGHT (turn LEFT robot) = robot
  /\ turn LEFT (turn RIGHT robot) = robot
  /\ turn RIGHT (turn RIGHT (turn RIGHT (turn RIGHT robot))) = robot.
Proof.
  unfold execute, is_on_grid, direction.
  destruct robot as [[c|] [d|] g]; cbn; try discriminate.
  intros _. destruct d; repeat split.
Qed.

(** X3: no command changes the grid the robot refers to; only Place and
    Move change the coordinates, only Place and Turn the direction; Nop
    and Report leave the robot as it was. *)
Theorem execute_frame (robot : Robot G) (command : RobotCommand) :
  let robot' := fst (execute command robot) in
  _grid robot' = _grid robot
  /\ (_coordinates robot' <> _coordinates robot ->
      (exists c d, command = PlaceRobotCommand c d) \/ command = MoveRobotCommand)
  /\ (_direction robot' <> _direction robot ->
      (exists c d, command = PlaceRobotCommand c d)
      \/ (exists r, command = TurnRobotCommand r))
  /\ (command = NopRobotCommand \/ command = ReportRobotCommand -> robot' = robot).
Proof.
  destruct command as [|c0 d0| |r|]; unfold execute.
  - cbn. repeat split; congruence.
  - destruct (is_valid_cell (get_grid robot) c0); cbn;
      repeat split; eauto; intros [?|?]; discriminate.
  - destruct (negb (is_on_grid robot)); [cbn; repeat split; try congruence;
      intros [?|?]; discriminate|].
    destruct (coordinates robot), (direction robot);
      try (cbn; repeat split; try congruence; intros [?|?]; discriminate).
    destruct (get_next_cell_coordinates (get_grid robot) c d) as [[c'|]|e]; cbn;
      repeat split; auto; try congruence; intros [?|?]; discriminate.
  - destruct (negb (is_on_grid robot)); [cbn; repeat split; try congruence;
      intros [?|?]; discriminate|].
    destruct (direction robot); [destruct r|]; cbn;
      repeat split; eauto; try congruence; intros [?|?]; discriminate.
  - destruct (negb (is_on_grid robot)); cbn; repeat split; congruence.
Qed.

(** X4: a line that parses to a Nop command can be removed from the input
    without changing where the run ends. *)
Theorem spin_lines_skip_nop (l1 l2 : list string) (line : string) (robot : Robot G) :
  generate_command (strip newline line) = NopRobotCommand ->
  spin_lines (l1 ++ line :: l2) robot = spin_lines (l1 ++ l2) robot.
Proof.
  intros Hnop. rewrite !spin_lines_app.
  destruct (spin_lines l1 robot) as [robot1 [u|e]]; [|reflexivity].
  cbn [spin_lines]. rewrite Hnop. reflexivity.
Qed.

(** X5: as long as the robot is not placed, a run over lines none of which
    is a Place command for a cell the grid accepts ends with the robot as
    it was, and no command raises. *)
Theorem spin_lines_before_placement (lines : list string) (robot : Robot G) :
  is_on_grid robot = false ->
  Forall (fun line => forall c d,
            generate_command (strip newline line) = PlaceRobotCommand c d ->
            is_valid_cell (_grid robot) c = false) lines ->
  spin_lines lines robot = (robot, Ok tt).
Proof.
  intros Hoff Hlines. induction Hlines as [|line lines Hline _ IH]; [reflexivity|].
  cbn [spin_lines].
  destruct (generate_command (strip newline line)) as [|c d| |r|] eqn:Hcmd;
    unfold execute; rewrite ?Hoff; cbn [negb]; try exact IH.
  unfold get_grid. rewrite (Hline c d eq_refl). exact IH.
Qed.

End MoreCommands.

(** ** Cells and their links *)

Lemma opposite_neq (d : Direction) : opposite d <> d.
Proof. destruct d; discriminate. Qed.

Lemma set_neighbour_inv (h h' : Cell.heap) (self n : CellRef) (d : Direction) :
  Cell.set_neighbour self n d h = Ok h' ->
  exists c, Cell.deref h self = Some c /\ Cell._neighbours c !! d = None
    /\ h' = Cell.update (Cell.add_neighbour (opposite d) self) n
              (Cell.update (Cell.add_neighbour d n) self h).
Proof.
  unfold Cell.set_neighbour. destruct (Cell.deref h self) as [c|]; [|discriminate].
  destruct (decide (is_Some (Cell._neighbours c !! d))) as [|Hno]; [discriminate|].
  intros Hh. injection Hh as <-. exists c. split; [reflexivity|]. split; [|reflexivity].
  destruct (Cell._neighbours c !! d) eqn:E; [|reflexivity].
  exfalso. apply Hno. eauto.
Qed.

(** After a successful [set_neighbour] both ends hold their link. *)
Lemma set_neighbour_both (h h' : Cell.heap) (self n : CellRef) (d : Direction) :
  Cell.set_neighbour self n d h = Ok h' ->
  is_Some (Cell.deref h n) ->
  (exists c, Cell.deref h' self = Some c /\ Cell._neighbours c !! d = Some n)
  /\ (exists c, Cell.deref h' n = Some c
        /\ Cell._neighbours c !! opposite d = Some self).
Proof.
  intros Hset [cn Hcn].
  apply set_neighbour_inv in Hset as (c & Hc & Hfree & ->).
  pose proof (opposite_neq d) as Hopp. split.
  - rewrite !deref_update, Hc. rewrite (decide_True (P := self = self)) by reflexivity.
    destruct (decide (n = self)); cbn; eexists; (split; [reflexivity|]);
      rewrite ?neighbours_add_neighbour;
      rewrite ?decide_False by assumption;
      rewrite ?neighbours_add_neighbour, decide_True by reflexivity; reflexivity.
  - rewrite !deref_update, Hcn. rewrite (decide_True (P := n = n)) by reflexivity.
    destruct (decide (self = n)); cbn; eexists; (split; [reflexivity|]);
      rewrite neighbours_add_neighbour, decide_True by reflexivity; reflexivity.
Qed.

(** X6: after [self.set_neighbour(neighbour, direction)] has returned,
    [self] has [neighbour] in [direction] and [neighbour] has [self] in the
    opposite direction, whatever [neighbour] held there before; every other
    cell is untouched, and in the two cells the coordinates and the links
    in the other directions are as before. *)
Theorem set_neighbour_links (h h' : Cell.heap) (self n : CellRef) (d : Direction) :
  Cell.set_neighbour self n d h = Ok h' ->
  is_Some (Cell.deref h n) ->
  (exists c, Cell.deref h' self = Some c /\ Cell.get_neighbour c d = Some n)
  /\ (exists c, Cell.deref h' n = Some c
        /\ Cell.get_neighbour c (opposite d) = Some self)
  /\ (forall r, r <> self -> r <> n -> Cell.deref h' r = Cell.deref h r)
  /\ (forall r c, Cell.deref h r = Some c ->
        exists c', Cell.deref h' r = Some c'
          /\ Cell.get_coordinates c' = Cell.get_coordinates c
          /\ forall d', d' <> d -> d' <> opposite d ->
               Cell.get_neighbour c' d' = Cell.get_neighbour c d').
Proof.
  intros Hset Hn.
  destruct (set_neighbour_both h h' self n d Hset Hn) as [Hself Hback].
  apply set_neighbour_inv in Hset as (c & Hc & Hfree & ->).
  unfold Cell.get_neighbour.
  split; [exact Hself|]. split; [exact Hback|]. split.
  - intros r Hr1 Hr2. rewrite !deref_update.
    rewrite !decide_False by congruence.
    destruct (Cell.deref h r); reflexivity.
  - intros r c0 Hc0. rewrite !deref_update, Hc0. cbn.
    eexists. split; [reflexivity|]. split.
    + destruct (decide (n = r)), (decide (self = r)); reflexivity.
    + intros d' Hd1 Hd2.
      destruct (decide (n = r)), (decide (self = r)); cbn;
        rewrite ?lookup_insert_ne by congruence; reflexivity.
Qed.

Lemma set_neighbour_links_witness :
  let h := [[Cell.__init__ 0 0; Cell.__init__ 0 1]] in
  let h' := [[Cell.add_neighbour NORTH (0, 1)%nat (Cell.__init__ 0 0);
              Cell.add_neighbour SOUTH (0, 0)%nat (Cell.__init__ 0 1)]] in
  Cell.set_neighbour (0, 0)%nat (0, 1)%nat NORTH h = Ok h'
  /\ is_Some (Cell.deref h (0, 1)%nat)
  /\ (exists c, Cell.deref h' (0, 0)%nat = Some c
        /\ Cell.get_neighbour c NORTH = Some (0, 1)%nat).
Proof.
  cbv zeta.
  assert (Hset : Cell.set_neighbour (0, 0)%nat (0, 1)%nat NORTH
                   [[Cell.__init__ 0 0; Cell.__init__ 0 1]]
                 = Ok [[Cell.add_neighbour NORTH (0, 1)%nat (Cell.__init__ 0 0);
                        Cell.add_neighbour SOUTH (0, 0)%nat (Cell.__init__ 0 1)]])
    by reflexivity.
  assert (Hn : is_Some (Cell.deref [[Cell.__init__ 0 0; Cell.__init__ 0 1]] (0, 1)%nat))
    by (eexists; reflexivity).
  split; [exact Hset|]. split; [exact Hn|].
  exact (proj1 (set_neighbour_links _ _ _ _ _ Hset Hn)).
Defined.

(** X7: links are written once. After [self.set_neighbour(neighbour, d)]
    has returned, a second call on [self] in direction [d] raises
    [RuntimeError], and so does a call on [neighbour] in the opposite
    direction, whatever cell is offered. *)
Theorem set_neighbour_write_once (h h' : Cell.heap) (self n : CellRef) (d : Direction) :
  Cell.set_neighbour self n d h = Ok h' ->
  is_Some (Cell.deref h n) ->
  forall other,
    Cell.set_neighbour self other d h' = Raise RuntimeError
    /\ Cell.set_neighbour n other (opposite d) h' = Raise RuntimeError.
Proof.
  intros Hset Hn other.
  destruct (set_neighbour_both h h' self n d Hset Hn)
    as ((c & Hc & Hcd) & (c' & Hc' & Hcd')).
  unfold Cell.set_neighbour.
  rewrite Hc, Hc', Hcd, Hcd'.
  rewrite !decide_True by eauto. auto.
Qed.

Lemma set_neighbour_write_once_witness :
  let h := [[Cell.__init__ 0 0; Cell.__init__ 0 1]] in
  let h' := [[Cell.add_neighbour NORTH (0, 1)%nat (Cell.__init__ 0 0);
              Cell.add_neighbour SOUTH (0, 0)%nat (Cell.__init__ 0 1)]] in
  Cell.set_neighbour (0, 0)%nat (0, 1)%nat NORTH h = Ok h'
  /\ is_Some (Cell.deref h (0, 1)%nat)
  /\ Cell.set_neighbour (0, 0)%nat (0, 0)%nat NORTH h' = Raise RuntimeError
  /\ Cell.set_neighbour (0, 1)%nat (0, 0)%nat (opposite NORTH) h' = Raise RuntimeError.
Proof.
  cbv zeta.
  assert (Hset : Cell.set_neighbour (0, 0)%nat (0, 1)%nat NORTH
                   [[Cell.__init__ 0 0; Cell.__init__ 0 1]]
                 = Ok [[Cell.add_neighbour NORTH (0, 1)%nat (Cell.__init__ 0 0);
                        Cell.add_neighbour SOUTH (0, 0)%nat (Cell.__init__ 0 1)]])
    by reflexivity.
  assert (Hn : is_Some (Cell.deref [[Cell.__init__ 0 0; Cell.__init__ 0 1]] (0, 1)%nat))
    by (eexists; reflexivity).
  split; [exact Hset|]. split; [exact Hn|].
  exact (set_neighbour_write_once _ _ _ _ _ Hset Hn (0, 0)%nat).
Defined.

(** ** The table of the square grid *)

Lemma alter_row_lengths (g : list Cell.t -> list Cell.t) (i : nat) (h : Cell.heap) :
  (forall row, length (g row) = length row) ->
  map length (alter g i h) = map length h.
Proof.
  intros Hg. revert i. induction h as [|row h IH]; intros [|i]; cbn; try reflexivity.
  - rewrite Hg. reflexivity.
  - f_equal. apply IH.
Qed.

Lemma update_row_lengths (f : Cell.t -> Cell.t) (r : CellRef) (h : Cell.heap) :
  map length (Cell.update f r h) = map length h.
Proof.
  unfold Cell.update. apply alter_row_lengths. intros row. apply length_alter.
Qed.

Lemma link_cell_row_lengths (size cx cy : Z) (h h' : Cell.heap) :
  SquareGrid.link_cell size cx cy h = Ok h' -> map length h' = map length h.
Proof.
  unfold SquareGrid.link_cell.
  destruct (Cell.getitem h cx cy) as [cell|]; [|discriminate]. cbn [mbind result_bind].
  assert (Hstep : forall h0 h1 c n d, Cell.set_neighbour c n d h0 = Ok h1 ->
                    map length h1 = map length h0).
  { intros h0 h1 c n d Hs. apply set_neighbour_inv in Hs as (_ & _ & _ & ->).
    rewrite !update_row_lengths. reflexivity. }
  destruct (cx <? size - 1).
  - destruct (Cell.getitem h (cx + 1) cy) as [n|]; [|discriminate]. cbn [mbind result_bind].
    destruct (Cell.set_neighbour cell n EAST h) as [h1|] eqn:H1; [|discriminate].
    cbn [mbind result_bind]. apply Hstep in H1. rewrite <- H1.
    destruct (cy <? size - 1); [|congruence].
    destruct (Cell.getitem h1 cx (cy + 1)) as [n'|]; [|discriminate].
    cbn [mbind result_bind]. apply Hstep.
  - cbn [mbind result_bind].
    destruct (cy <? size - 1); [|congruence].
    destruct (Cell.getitem h cx (cy + 1)) as [n'|]; [|discriminate].
    cbn [mbind result_bind]. apply Hstep.
Qed.

Lemma for_each_preserves {A S : Type} (P : S -> Prop) (xs : list A)
    (body : A -> S -> result S) :
  (forall a s s', body a s = Ok s' -> P s -> P s') ->
  forall s s', for_each xs body s = Ok s' -> P s -> P s'.
Proof.
  intros Hbody. induction xs as [|a xs IH]; intros s s' Hrun Hs; cbn in Hrun.
  - congruence.
  - destruct (body a s) as [s1|] eqn:E; [|discriminate].
    cbn in Hrun. eapply IH; [exact Hrun|]. eapply Hbody; eassumption.
Qed.

Lemma initialize_neighbors_row_lengths (n : Z) (h h' : Cell.heap) :
  SquareGrid._initialize_neighbors n h = Ok h' -> map length h' = map length h.
Proof.
  intros Hrun.
  apply (for_each_preserves (fun s => map length s = map length h) _ _) in Hrun;
    [exact Hrun | | reflexivity].
  intros cx s s' Hin Hs.
  apply (for_each_preserves (fun s => map length s = map length h) _ _) in Hin;
    [exact Hin | | exact Hs].
  intros cy s0 s1 Hl Hs0. apply link_cell_row_lengths in Hl. congruence.
Qed.

Lemma map_const_replicate {A B : Type} (b : B) (l : list A) :
  map (fun _ => b) l = replicate (length l) b.
Proof. induction l as [|a l IH]; cbn; [reflexivity | f_equal; exact IH]. Qed.

(** The table of a constructed grid is square. *)
Lemma SquareGrid_init_row_lengths (n : Z) (g : SquareGrid.t) :
  SquareGrid.__init__ n = Ok g ->
  SquareGrid._size g = n
  /\ map length (SquareGrid._cells g) = replicate (Z.to_nat n) (Z.to_nat n).
Proof.
  unfold SquareGrid.__init__.
  destruct (SquareGrid._initialize_neighbors n _) as [h|] eqn:Hrun; [|discriminate].
  cbn. intros Hg. injection Hg as <-. cbn. split; [reflexivity|].
  apply initialize_neighbors_row_lengths in Hrun. rewrite Hrun.
  rewrite map_map. cbn.
  rewrite (map_ext _ (fun _ => Z.to_nat n)).
  - rewrite map_const_replicate. unfold range.
    rewrite length_map, length_seq. reflexivity.
  - intros a. unfold range. rewrite !length_map, length_seq. reflexivity.
Qed.

Lemma row_lengths_lookup (N : nat) (h : Cell.heap) :
  map length h = replicate N N ->
  length h = N /\ forall i row, h !! i = Some row -> length row = N.
Proof.
  intros Hh. split.
  - rewrite <- (length_map length h), Hh. apply length_replicate.
  - intros i row Hrow.
    assert (Hi : map length h !! i = Some (length row)).
    { change (map length h) with (length <$> h). rewrite list_lookup_fmap, Hrow.
      reflexivity. }
    rewrite Hh in Hi. apply lookup_replicate in Hi as [-> _]. reflexivity.
Qed.

Lemma deref_in_range (N : nat) (h : Cell.heap) (r : CellRef) (c : Cell.t) :
  map length h = replicate N N -> Cell.deref h r = Some c ->
  (r.1 < N)%nat /\ (r.2 < N)%nat.
Proof.
  intros Hh Hc. destruct (row_lengths_lookup N h Hh) as [Hlen Hrows].
  unfold Cell.deref in Hc. destruct (h !! r.1) as [row|] eqn:Hrow; [|discriminate].
  cbn in Hc. split.
  - apply lookup_lt_Some in Hrow. lia.
  - apply lookup_lt_Some in Hc. rewrite (Hrows _ _ Hrow) in Hc. exact Hc.
Qed.

Lemma SquareGrid_init_empty (n : Z) :
  n <= 0 -> SquareGrid.__init__ n = Ok (SquareGrid.mk n []).
Proof.
  intros Hn. unfold SquareGrid.__init__, SquareGrid._initialize_neighbors, range.
  replace (Z.to_nat n) with 0%nat by lia. reflexivity.
Qed.

(** X8: for every size the constructor returns a grid of that size whose
    table has [max n 0] rows of [max n 0] cells, and the cell stored at
    row [i], column [j] reports the coordinates [(i, j)]. *)
Theorem SquareGrid_init_table (n : Z) :
  exists g, SquareGrid.__init__ n = Ok g
    /\ SquareGrid._size g = n
    /\ length (SquareGrid._cells g) = Z.to_nat n
    /\ (forall i row, SquareGrid._cells g !! i = Some row -> length row = Z.to_nat n)
    /\ (forall r c, Cell.deref (SquareGrid._cells g) r = Some c ->
          Cell.get_coordinates c = coordinates_of_ref r).
Proof.
  destruct (Z.le_gt_cases n 0) as [Hn|Hn].
  - exists (SquareGrid.mk n []). split; [apply SquareGrid_init_empty; exact Hn|].
    cbn. repeat split; try discriminate. lia.
  - destruct (SquareGrid_init_linked n) as (g & Hg & Hsize & Hl); [lia|].
    exists g. split; [exact Hg|]. split; [exact Hsize|].
    destruct (SquareGrid_init_row_lengths n g Hg) as [_ Hshape].
    destruct (row_lengths_lookup _ _ Hshape) as [Hlen Hrows].
    split; [exact Hlen|]. split; [exact Hrows|].
    intros [i j] c Hc.
    destruct (deref_in_range _ _ _ _ Hshape Hc) as [Hi Hj]. cbn [fst snd] in Hi, Hj.
    destruct (Hl i j Hi Hj) as (c' & Hc' & Hxy & _).
    rewrite Hc in Hc'. injection Hc' as <-.
    unfold Cell.get_coordinates, coordinates_of_ref. rewrite Hxy. reflexivity.
Qed.

(** X9: a grid of size [n <= 0] has no cells: the constructor returns,
    every neighbour query raises [IndexError], and no cell with
    coordinates that are not negative is valid. *)
Theorem SquareGrid_empty (n : Z) :
  n <= 0 ->
  exists g, SquareGrid.__init__ n = Ok g
    /\ SquareGrid._cells g = []
    /\ (forall c d, get_next_cell_coordinates g c d = Raise IndexError)
    /\ (forall c, 0 <= x c -> is_valid_cell g c = false).
Proof.
  intros Hn. exists (SquareGrid.mk n []).
  split; [apply SquareGrid_init_empty; exact Hn|]. split; [reflexivity|]. split.
  - intros c d. cbn. unfold SquareGrid.get_next_cell_coordinates, Cell.getitem, py_index.
    cbn [SquareGrid._cells length].
    destruct (Z.leb_spec 0 (x c)), (Z.ltb_spec (x c) (Z.of_nat 0)),
      (Z.leb_spec (- Z.of_nat 0) (x c)), (Z.ltb_spec (x c) 0); cbn; try reflexivity; lia.
  - intros c Hx. cbn. unfold SquareGrid.is_valid_cell. cbn.
    destruct (Z.ltb_spec (x c) n); [lia | reflexivity].
Qed.

Lemma SquareGrid_empty_witness :
  exists g, SquareGrid.__init__ 0 = Ok g
    /\ SquareGrid._cells g = []
    /\ (forall c d, get_next_cell_coordinates g c d = Raise IndexError)
    /\ (forall c, 0 <= x c -> is_valid_cell g c = false).
Proof. apply (SquareGrid_empty 0). lia. Defined.

Lemma py_index_cases (len : nat) (i : Z) :
  (0 < len)%nat ->
  py_index len i =
  if decide (- Z.of_nat len <= i < Z.of_nat len)
  then Ok (Z.to_nat (i mod Z.of_nat len))
  else Raise IndexError.
Proof.
  intros Hlen. unfold py_index.
  destruct (Z.leb_spec 0 i), (Z.ltb_spec i (Z.of_nat len)),
    (Z.leb_spec (- Z.of_nat len) i), (Z.ltb_spec i 0); cbn [andb];
    case_decide; try lia; try reflexivity.
  - rewrite Z.mod_small by lia. reflexivity.
  - f_equal. f_equal.
    rewrite <- (Z.mod_add i 1 (Z.of_nat len)) by lia.
    rewrite Z.mod_small by lia. lia.
Qed.

Lemma getitem_square (N : nat) (h : Cell.heap) (cx cy : Z) :
  (0 < N)%nat -> map length h = replicate N N ->
  Cell.getitem h cx cy =
  if decide (- Z.of_nat N <= cx < Z.of_nat N /\ - Z.of_nat N <= cy < Z.of_nat N)
  then Ok (Z.to_nat (cx mod Z.of_nat N), Z.to_nat (cy mod Z.of_nat N))
  else Raise IndexError.
Proof.
  intros HN Hshape. destruct (row_lengths_lookup N h Hshape) as [Hlen Hrows].
  unfold Cell.getitem. rewrite Hlen, py_index_cases by exact HN.
  destruct (decide (- Z.of_nat N <= cx < Z.of_nat N)) as [Hx|Hx]; cbn [mbind result_bind].
  - pose proof (Z.mod_pos_bound cx (Z.of_nat N)) as Hm.
    destruct (h !! Z.to_nat (cx mod Z.of_nat N)) as [row|] eqn:Hrow.
    + rewrite (Hrows _ _ Hrow), py_index_cases by exact HN.
      destruct (decide (- Z.of_nat N <= cy < Z.of_nat N)); cbn [mbind result_bind];
        case_decide; try tauto; reflexivity.
    + apply lookup_ge_None in Hrow. lia.
  - case_decide; [tauto | reflexivity].
Qed.

(** X10: on the grid built for a size [n > 0] a neighbour query raises
    exactly when a coordinate lies outside [-n <= . < n], and what it
    raises is [IndexError]; a negative coordinate inside that range counts
    from the far edge, so the query answers as for the coordinates reduced
    modulo [n]. *)
Theorem get_next_cell_coordinates_index (n : Z) (c : Coordinates) (d : Direction) :
  0 < n ->
  exists g, SquareGrid.__init__ n = Ok g
    /\ (get_next_cell_coordinates g c d = Raise IndexError
        <-> ~ (- n <= x c < n /\ - n <= y c < n))
    /\ (forall e, get_next_cell_coordinates g c d = Raise e -> e = IndexError)
    /\ (- n <= x c < n -> - n <= y c < n ->
        get_next_cell_coordinates g c d
        = get_next_cell_coordinates g (mkCoordinates (x c mod n) (y c mod n)) d).
Proof.
  intros Hn. destruct (SquareGrid_init_linked n) as (g & Hg & Hsize & Hl); [lia|].
  exists g. split; [exact Hg|].
  destruct (SquareGrid_init_row_lengths n g Hg) as [_ Hshape].
  set (N := Z.to_nat n) in *.
  assert (HN : Z.of_nat N = n) by (unfold N; lia).
  pose proof (Z.mod_pos_bound (x c) n Hn) as Hmx.
  pose proof (Z.mod_pos_bound (y c) n Hn) as Hmy.
  assert (Hwrap : - n <= x c < n /\ - n <= y c < n ->
            get_next_cell_coordinates g c d
            = get_next_cell_coordinates g (mkCoordinates (x c mod n) (y c mod n)) d).
  { intros Hin. cbn. unfold SquareGrid.get_next_cell_coordinates. cbn [x y].
    rewrite !(getitem_square N) by (assumption || lia). rewrite !HN.
    rewrite !decide_True by lia. rewrite !Z.mod_mod by lia. reflexivity. }
  assert (Hok : exists r, get_next_cell_coordinates g
                  (mkCoordinates (x c mod n) (y c mod n)) d = Ok r).
  { cbn. rewrite (linked_get_next N g _ _ d Hl) by lia. eauto. }
  destruct Hok as (r & Hr).
  assert (Hout : ~ (- n <= x c < n /\ - n <= y c < n) ->
            get_next_cell_coordinates g c d = Raise IndexError).
  { intros Hno. cbn. unfold SquareGrid.get_next_cell_coordinates.
    rewrite (getitem_square N) by (assumption || lia). rewrite HN.
    rewrite decide_False by exact Hno. reflexivity. }
  split; [|split].
  - split; [|exact Hout].
    intros Hraise Hin. rewrite (Hwrap Hin), Hr in Hraise. discriminate.
  - intros e He.
    destruct (decide (- n <= x c < n /\ - n <= y c < n)) as [Hin|Hno].
    + rewrite (Hwrap Hin), Hr in He. discriminate.
    + rewrite (Hout Hno) in He. congruence.
  - intros Hx Hy. apply Hwrap. split; assumption.
Qed.

Lemma get_next_cell_coordinates_index_witness :
  exists g, SquareGrid.__init__ 5 = Ok g
    /\ (get_next_cell_coordinates g (mkCoordinates (-1) 5) WEST = Raise IndexError
        <-> ~ (- 5 <= x (mkCoordinates (-1) 5) < 5 /\ - 5 <= y (mkCoordinates (-1) 5) < 5))
    /\ (forall e, get_next_cell_coordinates g (mkCoordinates (-1) 5) WEST = Raise e ->
          e = IndexError)
    /\ (- 5 <= x (mkCoordinates (-1) 5) < 5 -> - 5 <= y (mkCoordinates (-1) 5) < 5 ->
        get_next_cell_coordinates g (mkCoordinates (-1) 5) WEST
        = get_next_cell_coordinates g
            (mkCoordinates (x (mkCoordinates (-1) 5) mod 5)
               (y (mkCoordinates (-1) 5) mod 5)) WEST).
Proof. apply (get_next_cell_coordinates_index 5 (mkCoordinates (-1) 5) WEST). lia. Defined.

(** X11: in a constructed grid two cells compare equal exactly when they
    are the same cell of the table. *)
Theorem Cell_eq_identity (n : Z) :
  exists g, SquareGrid.__init__ n = Ok g
    /\ forall r1 r2 c1 c2,
         Cell.deref (SquareGrid._cells g) r1 = Some c1 ->
         Cell.deref (SquareGrid._cells g) r2 = Some c2 ->
         (Cell_eq c1 c2 = true <-> r1 = r2).
Proof.
  destruct (Z.le_gt_cases n 0) as [Hn|Hn].
  - exists (SquareGrid.mk n []). split; [apply SquareGrid_init_empty; exact Hn|].
    intros [i j] r2 c1 c2 Hc1. discriminate.
  - destruct (SquareGrid_init_linked n) as (g & Hg & Hsize & Hl); [lia|].
    exists g. split; [exact Hg|].
    destruct (SquareGrid_init_row_lengths n g Hg) as [_ Hshape].
    intros [i1 j1] [i2 j2] c1 c2 Hc1 Hc2.
    destruct (deref_in_range _ _ _ _ Hshape Hc1) as [Hi1 Hj1].
    destruct (deref_in_range _ _ _ _ Hshape Hc2) as [Hi2 Hj2].
    cbn [fst snd] in *.
    destruct (Hl i1 j1 Hi1 Hj1) as (c1' & Hc1' & Hxy1 & _).
    destruct (Hl i2 j2 Hi2 Hj2) as (c2' & Hc2' & Hxy2 & _).
    rewrite Hc1 in Hc1'. injection Hc1' as <-.
    rewrite Hc2 in Hc2'. injection Hc2' as <-.
    unfold Cell_eq. rewrite Hxy1, Hxy2. cbn [x y].
    rewrite andb_true_iff, !Z.eqb_eq. split.
    + intros [? ?]. f_equal; lia.
    + intros Heq. injection Heq as -> ->. auto.
Qed.

(** ** Moving on the square grid *)

Lemma execute_move_placed {G : Type} `{AbstractGrid G} (c : Coordinates)
    (d : Direction) (g : G) :
  execute MoveRobotCommand (mkRobot (Some c) (Some d) g) =
  match get_next_cell_coordinates g c d with
  | Raise e => (mkRobot (Some c) (Some d) g, Raise e)
  | Ok None => (mkRobot (Some c) (Some d) g, Ok false)
  | Ok (Some c') => (mkRobot (Some c') (Some d) g, Ok true)
  end.
Proof.
  unfold execute. rewrite coordinates_copy.
  unfold is_on_grid, direction, get_grid. cbn.
  destruct (get_next_cell_coordinates g c d) as [[c'|]|e]; try reflexivity.
  rewrite set_coordinates_copy. reflexivity.
Qed.

Lemma execute_turn_placed {G : Type} `{AbstractGrid G} (c : Coordinates)
    (d : Direction) (g : G) (r : RobotRotation) :
  execute (TurnRobotCommand r) (mkRobot (Some c) (Some d) g) =
  (mkRobot (Some c)
     (Some (match r with RIGHT => clockwise d | LEFT => counter_clockwise d end)) g,
   Ok true).
Proof. destruct r; reflexivity. Qed.

(** X12: on the grid built for a size [n > 0], a robot on a cell of the
    grid whose Move succeeds comes back to that cell by turning right
    twice and moving again, and then faces the opposite direction. *)
Theorem move_turn_around_move (n : Z) (c : Coordinates) (d : Direction) :
  0 < n -> 0 <= x c < n -> 0 <= y c < n ->
  exists g, SquareGrid.__init__ n = Ok g
    /\ let robot := mkRobot (Some c) (Some d) g in
       let '(r1, out1) := execute MoveRobotCommand robot in
       let r2 := fst (execute (TurnRobotCommand RIGHT) r1) in
       let r3 := fst (execute (TurnRobotCommand RIGHT) r2) in
       let '(r4, out4) := execute MoveRobotCommand r3 in
       out1 = Ok true ->
       out4 = Ok true
       /\ _coordinates r4 = Some c /\ _direction r4 = Some (opposite d).
Proof.
  intros Hn Hx Hy. destruct (SquareGrid_init_linked n) as (g & Hg & _ & Hl); [lia|].
  exists g. split; [exact Hg|]. cbv zeta.
  rewrite execute_move_placed.
  cbn [get_next_cell_coordinates SquareGrid_AbstractGrid].
  destruct (SquareGrid.get_next_cell_coordinates g c d) as [[c'|]|e] eqn:Hnext.
  - destruct (linked_neighbour (Z.to_nat n) g c c' d Hl) as [_ Hback];
      [lia | lia | exact Hnext |].
    cbv beta iota zeta. repeat (rewrite execute_turn_placed; cbn [fst]).
    rewrite execute_move_placed.
    replace (clockwise (clockwise d)) with (opposite d) by (destruct d; reflexivity).
    cbn [get_next_cell_coordinates SquareGrid_AbstractGrid]. rewrite Hback.
    intros _. cbn. auto.
  - destruct (execute MoveRobotCommand _). discriminate.
  - destruct (execute MoveRobotCommand _). discriminate.
Qed.

Lemma move_turn_around_move_witness :
  exists g, SquareGrid.__init__ 5 = Ok g
    /\ let robot := mkRobot (Some (mkCoordinates 1 2)) (Some EAST) g in
       let '(r1, out1) := execute MoveRobotCommand robot in
       let r2 := fst (execute (TurnRobotCommand RIGHT) r1) in
       let r3 := fst (execute (TurnRobotCommand RIGHT) r2) in
       let '(r4, out4) := execute MoveRobotCommand r3 in
       out1 = Ok true ->
       out4 = Ok true
       /\ _coordinates r4 = Some (mkCoordinates 1 2)
       /\ _direction r4 = Some (opposite EAST).
Proof.
  apply (move_turn_around_move 5 (mkCoordinates 1 2) EAST); cbn; lia.
Defined.

(** ** What the parser accepts *)

Lemma free_of_app (sep : ascii) (a b : string) :
  free_of sep (a ++ b) = free_of sep a && free_of sep b.
Proof.
  unfold free_of. induction a as [|c a IH]; [reflexivity|].
  change (String c a ++ b) with (String c (a ++ b)).
  cbn [all_chars]. rewrite IH, andb_assoc. reflexivity.
Qed.

Lemma split_free (sep : ascii) (a : string) :
  free_of sep a = true -> split sep a = [a].
Proof.
  unfold free_of. induction a as [|c a IH]; cbn; [reflexivity|].
  intros Hc. apply andb_true_iff in Hc as [Hc Ha].
  apply negb_true_iff in Hc. rewrite Hc, (IH Ha). reflexivity.
Qed.

Lemma split_app_sep (sep : ascii) (a b : string) :
  free_of sep a = true -> split sep (a ++ String sep b) = a :: split sep b.
Proof.
  unfold free_of. induction a as [|c a IH].
  - intros _. change (EmptyString ++ String sep b) with (String sep b).
    cbn [split]. rewrite Ascii.eqb_refl. reflexivity.
  - change (String c a ++ String sep b) with (String c (a ++ String sep b)).
    cbn [all_chars split]. intros Hc. apply andb_true_iff in Hc as [Hc Ha].
    apply negb_true_iff in Hc. rewrite Hc, (IH Ha). reflexivity.
Qed.

Lemma decimal_free_of (sep : ascii) (s : string) :
  is_ascii_digit sep = false -> all_chars is_ascii_digit s = true ->
  free_of sep s = true.
Proof.
  intros Hsep. unfold free_of. induction s as [|c s IH]; cbn; [reflexivity|].
  intros Hc. apply andb_true_iff in Hc as [Hc Hs]. rewrite (IH Hs), andb_true_r.
  apply negb_true_iff. destruct (Ascii.eqb_spec c sep) as [->|]; congruence.
Qed.

Lemma decimal_isdigit (s : string) : is_decimal_literal s -> isdigit s = true.
Proof.
  intros [Hne Hall]. destruct s as [|c s]; [congruence|].
  unfold isdigit. revert Hall. generalize (String c s). clear.
  intros s. induction s as [|c s IH]; cbn; [reflexivity|].
  intros Hc. apply andb_true_iff in Hc as [Hc Hs]. rewrite (IH Hs), andb_true_r.
  unfold isdigit_char. unfold is_ascii_digit in Hc. rewrite Hc. reflexivity.
Qed.

Lemma int_digits_of_decimal (s : string) (acc : Z) :
  all_chars is_ascii_digit s = true -> exists v, int_digits acc s = Ok v.
Proof.
  revert acc. induction s as [|c s IH]; cbn; intros acc Hall; [eauto|].
  apply andb_true_iff in Hall as [Hc Hs].
  unfold decimal_value. fold (is_ascii_digit c). rewrite Hc. apply IH, Hs.
Qed.

Lemma int_of_decimal (s : string) :
  is_decimal_literal s -> exists v, int s = Ok v /\ 0 <= v.
Proof.
  intros [Hne Hall]. destruct (int_digits_of_decimal s 0 Hall) as (v & Hv).
  exists v. assert (Hint : int s = Ok v) by (destruct s; [congruence | exact Hv]).
  split; [exact Hint|]. apply int_decimal in Hint. tauto.
Qed.

Lemma list_getitem_lookup {A : Type} (l : list A) (k : nat) (v : A) :
  l !! k = Some v -> list_getitem l (Z.of_nat k) = Ok v.
Proof.
  intros Hk. pose proof (lookup_lt_Some _ _ _ Hk) as Hlen.
  unfold list_getitem. rewrite py_index_in_range by lia.
  rewrite Nat2Z.id. cbn. rewrite Hk. reflexivity.
Qed.

Lemma Direction_name_member (d : Direction) :
  Direction_members (Direction_name d) = Some d
  /\ free_of " " (Direction_name d) = true
  /\ free_of "," (Direction_name d) = true.
Proof. destruct d; repeat split. Qed.

Lemma string_app_nil_r (s : string) : s ++ EmptyString = s.
Proof.
  induction s as [|c s IH]; [reflexivity|].
  change (String c s ++ EmptyString) with (String c (s ++ EmptyString)).
  rewrite IH. reflexivity.
Qed.

(** The place generator returns on a token whose first three fields are
    well formed. *)
Lemma _generate_place_command_ok (kw r fx fy : string) (rest : list string)
    (vx vy : Z) (d : Direction) :
  split "," r = fx :: fy :: Direction_name d :: rest ->
  is_decimal_literal fx -> is_decimal_literal fy ->
  int fx = Ok vx -> int fy = Ok vy ->
  _generate_place_command [kw; r] = Ok (PlaceRobotCommand (mkCoordinates vx vy) d).
Proof.
  intros Hfields Hfx Hfy Hvx Hvy.
  destruct (Direction_name_member d) as (Hmem & _ & _).
  unfold _generate_place_command. cbn [length Nat.eqb negb].
  rewrite (list_getitem_lookup _ 1%nat r) by reflexivity.
  cbn [mbind result_bind]. rewrite Hfields.
  rewrite (list_getitem_lookup _ 0%nat fx) by reflexivity.
  cbn [mbind result_bind]. rewrite (decimal_isdigit fx Hfx). cbn [negb].
  rewrite (list_getitem_lookup _ 1%nat fy) by reflexivity.
  cbn [mbind result_bind]. rewrite (decimal_isdigit fy Hfy). cbn [negb].
  rewrite (list_getitem_lookup _ 2%nat (Direction_name d)) by reflexivity.
  cbn [mbind result_bind]. rewrite Hmem, Hvx. cbn [mbind result_bind].
  rewrite Hvy. reflexivity.
Qed.

(** A line of two tokens with the keyword [PLACE] gets what the place
    generator returns. *)
Lemma generate_command_place_tokens (r : string) (c : RobotCommand) :
  free_of " " r = true ->
  _generate_place_command ["PLACE"; r] = Ok c ->
  generate_command ("PLACE " ++ r) = c.
Proof.
  intros Hfree Hgen.
  assert (Hdata : split " " ("PLACE " ++ r) = ["PLACE"; r]).
  { change ("PLACE " ++ r) with ("PLACE" ++ String " " r).
    rewrite split_app_sep by reflexivity. rewrite split_free by exact Hfree.
    reflexivity. }
  unfold generate_command, generate_command_body. rewrite Hdata.
  rewrite (list_getitem_lookup _ 0%nat "PLACE") by reflexivity.
  cbn [mbind result_bind].
  replace (api_generator_map !! "PLACE") with (Some _generate_place_command)
    by (unfold api_generator_map; rewrite lookup_insert_eq; reflexivity).
  rewrite Hgen. reflexivity.
Qed.

(** X13: every line made of [PLACE], one space, two decimal literals of
    at most 4300 digits each and the name of a direction, separated by
    commas, parses to the Place command with the numbers the literals
    denote, which are not negative. So does such a line followed by a comma
    and any text without a space: fields after the third are not looked
    at. *)
Theorem generate_command_place_complete (fx fy extra : string) (d : Direction) :
  is_decimal_literal fx -> is_decimal_literal fy ->
  (String.length fx <= int_max_str_digits)%nat ->
  (String.length fy <= int_max_str_digits)%nat ->
  (extra = EmptyString
   \/ exists junk, extra = String "," junk /\ free_of " " junk = true) ->
  exists vx vy, int fx = Ok vx /\ int fy = Ok vy /\ 0 <= vx /\ 0 <= vy
    /\ generate_command
         ("PLACE " ++ fx ++ "," ++ fy ++ "," ++ Direction_name d ++ extra)
       = PlaceRobotCommand (mkCoordinates vx vy) d.
Proof.
  intros Hfx Hfy _ _ Hextra.
  destruct (int_of_decimal fx Hfx) as (vx & Hvx & Hx0).
  destruct (int_of_decimal fy Hfy) as (vy & Hvy & Hy0).
  exists vx, vy. repeat split; try assumption.
  destruct (Direction_name_member d) as (_ & Hsp & Hco).
  pose proof Hfx as [_ Hax]. pose proof Hfy as [_ Hay].
  set (r := fx ++ "," ++ fy ++ "," ++ Direction_name d ++ extra).
  assert (Hfree : free_of " " r = true).
  { unfold r. rewrite !free_of_app.
    rewrite (decimal_free_of " " fx), (decimal_free_of " " fy), Hsp
      by (reflexivity || assumption).
    destruct Hextra as [->|(junk & -> & Hj)]; [reflexivity|].
    unfold free_of in *. cbn. rewrite Hj. reflexivity. }
  assert (Hfields : exists rest, split "," r = fx :: fy :: Direction_name d :: rest).
  { unfold r.
    change (fx ++ "," ++ fy ++ "," ++ Direction_name d ++ extra)
      with (fx ++ String "," (fy ++ String "," (Direction_name d ++ extra))).
    rewrite split_app_sep by (apply decimal_free_of; [reflexivity | assumption]).
    rewrite split_app_sep by (apply decimal_free_of; [reflexivity | assumption]).
    destruct Hextra as [->|(junk & -> & Hj)].
    - rewrite string_app_nil_r, split_free by exact Hco. eauto.
    - rewrite split_app_sep by exact Hco. eauto. }
  destruct Hfields as (rest & Hfields).
  apply (generate_command_place_tokens r _ Hfree).
  apply (_generate_place_command_ok "PLACE" r fx fy rest vx vy d); assumption.
Qed.

Lemma generate_command_place_complete_witness :
  exists vx vy, int "03" = Ok vx /\ int "4" = Ok vy /\ 0 <= vx /\ 0 <= vy
    /\ generate_command ("PLACE " ++ "03" ++ "," ++ "4" ++ "," ++ Direction_name WEST ++ ",x")
       = PlaceRobotCommand (mkCoordinates vx vy) WEST.
Proof.
  apply (generate_command_place_complete "03" "4" ",x" WEST).
  - split; [discriminate | reflexivity].
  - split; [discriminate | reflexivity].
  - unfold int_max_str_digits. cbn. lia.
  - unfold int_max_str_digits. cbn. lia.
  - right. exists "x". split; reflexivity.
Defined.

(** ** Reading back what Report prints *)

Lemma decimal_value_digit_char (k : Z) :
  0 <= k < 10 ->
  decimal_value (digit_char k) = Some k /\ is_ascii_digit (digit_char k) = true.
Proof.
  intros Hk.
  assert (Hcases : k = 0 \/ k = 1 \/ k = 2 \/ k = 3 \/ k = 4 \/ k = 5 \/ k = 6
                   \/ k = 7 \/ k = 8 \/ k = 9) by lia.
  repeat (destruct Hcases as [->|Hcases]; [split; reflexivity|]).
  subst. split; reflexivity.
Qed.

Lemma str_digits_int (fuel : nat) (m : Z) (acc : string) :
  0 <= m < 2 ^ Z.of_nat fuel ->
  int_digits 0 (str_digits fuel m acc) = int_digits m acc.
Proof.
  revert m acc. induction fuel as [|fuel IH]; intros m acc Hm.
  - cbn in Hm. replace m with 0 by lia. reflexivity.
  - cbn [str_digits].
    pose proof (Z.mod_pos_bound m 10) as Hmod.
    destruct (decimal_value_digit_char (m mod 10)) as [Hd _]; [lia|].
    destruct (Z.ltb_spec m 10) as [Hsmall|Hbig].
    + cbn [int_digits]. rewrite Hd. rewrite Z.mod_small by lia. reflexivity.
    + rewrite IH.
      * cbn [int_digits]. rewrite Hd. f_equal.
        pose proof (Z.div_mod m 10). lia.
      * rewrite Nat2Z.inj_succ, Z.pow_succ_r in Hm by lia.
        split; [apply Z.div_pos; lia|].
        apply Z.div_lt_upper_bound; lia.
Qed.

Lemma str_digits_decimal (fuel : nat) (m : Z) (acc : string) :
  all_chars is_ascii_digit acc = true ->
  all_chars is_ascii_digit (str_digits fuel m acc) = true.
Proof.
  revert m acc. induction fuel as [|fuel IH]; intros m acc Hacc; [exact Hacc|].
  cbn [str_digits].
  pose proof (Z.mod_pos_bound m 10) as Hmod.
  destruct (decimal_value_digit_char (m mod 10)) as [_ Hd]; [lia|].
  destruct (m <? 10); [|apply IH]; cbn [all_chars]; rewrite Hd, Hacc; reflexivity.
Qed.

Lemma str_digits_acc_not_empty (fuel : nat) (m : Z) (acc : string) :
  acc <> EmptyString -> str_digits fuel m acc <> EmptyString.
Proof.
  revert m acc. induction fuel as [|fuel IH]; intros m acc Hacc; [exact Hacc|].
  cbn [str_digits]. destruct (m <? 10); [discriminate | apply IH; discriminate].
Qed.

Lemma str_digits_not_empty (fuel : nat) (m : Z) (acc : string) :
  str_digits (Datatypes.S fuel) m acc <> EmptyString.
Proof.
  cbn [str_digits]. destruct (m <? 10); [discriminate|].
  apply str_digits_acc_not_empty. discriminate.
Qed.

(** The text of a number that is not negative is a decimal literal, and
    [int] reads the number back from it. *)
Lemma int_str (v : Z) :
  0 <= v -> is_decimal_literal (str v) /\ int (str v) = Ok v.
Proof.
  intros Hv. unfold str. destruct (Z.ltb_spec v 0) as [|_]; [lia|].
  set (fuel := Z.to_nat (Z.log2 v)).
  assert (Hne : str_digits (Datatypes.S fuel) v EmptyString <> EmptyString)
    by apply str_digits_not_empty.
  split.
  - split; [exact Hne | apply str_digits_decimal; reflexivity].
  - unfold int. destruct (str_digits (Datatypes.S fuel) v EmptyString) eqn:E;
      [congruence|].
    rewrite <- E. rewrite str_digits_int; [reflexivity|].
    split; [exact Hv|]. unfold fuel.
    rewrite Nat2Z.inj_succ, Z2Nat.id by apply Z.log2_nonneg.
    destruct (Z.eq_dec v 0) as [->|Hnz]; [reflexivity|].
    apply Z.log2_spec. lia.
Qed.

(** X14: on the grid built for a size [n > 0], for a cell [(vx, vy)] of
    the grid and a direction, the line [PLACE vx,vy,DIRECTION] written with
    the numbers in decimal places any robot there, and a Report that
    follows prints [Output: ] and exactly the text after [PLACE ]. *)
Theorem place_report_round_trip (n vx vy : Z) (d : Direction) :
  0 < n -> 0 <= vx < n -> 0 <= vy < n ->
  exists g, SquareGrid.__init__ n = Ok g
    /\ forall robot, _grid robot = g ->
       let args := str vx ++ "," ++ str vy ++ "," ++ Direction_name d in
       let '(robot', out) := execute (generate_command ("PLACE " ++ args)) robot in
       out = Ok true
       /\ execute ReportRobotCommand robot' = (robot', Ok true)
       /\ execute_stdout ReportRobotCommand robot' = ["Output: " ++ args].
Proof.
  intros Hn Hx Hy. destruct (SquareGrid_init_linked n) as (g & Hg & Hsize & _); [lia|].
  exists g. split; [exact Hg|]. intros robot Hgrid. cbv zeta.
  destruct (int_str vx) as [Hdx Hix]; [lia|].
  destruct (int_str vy) as [Hdy Hiy]; [lia|].
  destruct (Direction_name_member d) as (_ & Hsp & Hco).
  pose proof Hdx as [_ Hax]. pose proof Hdy as [_ Hay].
  set (r := str vx ++ "," ++ str vy ++ "," ++ Direction_name d).
  assert (Hfree : free_of " " r = true).
  { unfold r. rewrite !free_of_app.
    rewrite (decimal_free_of " " (str vx)), (decimal_free_of " " (str vy)), Hsp
      by (reflexivity || assumption).
    reflexivity. }
  assert (Hfields : split "," r = [str vx; str vy; Direction_name d]).
  { unfold r.
    change (str vx ++ "," ++ str vy ++ "," ++ Direction_name d)
      with (str vx ++ String "," (str vy ++ String "," (Direction_name d))).
    rewrite split_app_sep by (apply decimal_free_of; [reflexivity | assumption]).
    rewrite split_app_sep by (apply decimal_free_of; [reflexivity | assumption]).
    rewrite split_free by exact Hco. reflexivity. }
  rewrite (generate_command_place_tokens r
             (PlaceRobotCommand (mkCoordinates vx vy) d) Hfree)
    by (apply (_generate_place_command_ok "PLACE" r (str vx) (str vy) [] vx vy d);
        assumption).
  cbn [execute]. unfold get_grid. rewrite Hgrid.
  replace (is_valid_cell g (mkCoordinates vx vy)) with true
    by (symmetry; apply is_valid_cell_iff; rewrite Hsize; cbn; lia).
  split; [reflexivity|]. split; reflexivity.
Qed.

Lemma place_report_round_trip_witness :
  exists g, SquareGrid.__init__ 5 = Ok g
    /\ forall robot, _grid robot = g ->
       let args := str 3 ++ "," ++ str 4 ++ "," ++ Direction_name SOUTH in
       let '(robot', out) := execute (generate_command ("PLACE " ++ args)) robot in
       out = Ok true
       /\ execute ReportRobotCommand robot' = (robot', Ok true)
       /\ execute_stdout ReportRobotCommand robot' = ["Output: " ++ args].
Proof. apply (place_report_round_trip 5 3 4 SOUTH); lia. Defined.

(** ** Lines as the receiver gets them *)

Lemma lstrip_free (c : ascii) (s : string) :
  free_of c s = true -> lstrip c s = s.
Proof.
  unfold free_of. destruct s as [|a s]; [reflexivity|]. cbn [all_chars lstrip].
  intros Ha. apply andb_true_iff in Ha as [Ha _]. apply negb_true_iff in Ha.
  rewrite Ha. reflexivity.
Qed.

Lemma rstrip_free (c : ascii) (s : string) :
  free_of c s = true -> rstrip c s = s.
Proof.
  unfold free_of. induction s as [|a s IH]; [reflexivity|]. cbn [all_chars rstrip].
  intros Ha. apply andb_true_iff in Ha as [Ha Hs]. apply negb_true_iff in Ha.
  rewrite (IH Hs), Ha. destruct s; reflexivity.
Qed.

Lemma rstrip_free_sep (c : ascii) (s : string) :
  free_of c s = true -> rstrip c (s ++ String c EmptyString) = s.
Proof.
  unfold free_of. induction s as [|a s IH].
  - intros _. change (EmptyString ++ String c EmptyString) with (String c EmptyString).
    cbn [rstrip]. rewrite Ascii.eqb_refl. reflexivity.
  - change (String a s ++ String c EmptyString)
      with (String a (s ++ String c EmptyString)).
    cbn [all_chars rstrip].
    intros Ha. apply andb_true_iff in Ha as [Ha Hs]. apply negb_true_iff in Ha.
    rewrite (IH Hs), Ha. destruct s; reflexivity.
Qed.

Lemma strip_line (c : ascii) (s : string) :
  free_of c s = true ->
  strip c s = s /\ strip c (s ++ String c EmptyString) = s.
Proof.
  intros Hs. unfold strip. split.
  - rewrite lstrip_free, rstrip_free by exact Hs. reflexivity.
  - destruct s as [|a s].
    + change (EmptyString ++ String c EmptyString) with (String c EmptyString).
      cbn [lstrip]. rewrite Ascii.eqb_refl. reflexivity.
    + pose proof Hs as Hs'. unfold free_of in Hs'. cbn [all_chars] in Hs'.
      apply andb_true_iff in Hs' as [Ha _]. apply negb_true_iff in Ha.
      change (String a s ++ String c EmptyString)
        with (String a (s ++ String c EmptyString)).
      cbn [lstrip]. rewrite Ha.
      change (String a (s ++ String c EmptyString))
        with (String a s ++ String c EmptyString).
      apply rstrip_free_sep, Hs.
Qed.

(** X15: a line without a newline inside reaches the parser as it is,
    whether or not a newline ends it: [recv] hands out the command of the
    line and keeps the lines that follow. An unparseable or blank line is
    handed out as a Nop command, not skipped, and [recv] returns [None]
    only when no line is left. *)
Theorem recv_line (line : string) (rest : list string) :
  free_of newline line = true ->
  recv (mkReceiver (line :: rest))
    = (Some (generate_command line), mkReceiver rest)
  /\ recv (mkReceiver ((line ++ String newline EmptyString) :: rest))
    = (Some (generate_command line), mkReceiver rest)
  /\ forall rc, fst (recv rc) = None <-> _commands rc = [].
Proof.
  intros Hline. destruct (strip_line newline line Hline) as [H1 H2].
  unfold recv. cbn [_commands]. rewrite H1, H2.
  split; [reflexivity|]. split; [reflexivity|].
  intros [[|l ls]]; cbn; split; intros; (reflexivity || discriminate).
Qed.

Lemma recv_line_witness :
  recv (mkReceiver ["MOVE"; "LEFT"])
    = (Some (generate_command "MOVE"), mkReceiver ["LEFT"])
  /\ recv (mkReceiver (("MOVE" ++ String newline EmptyString) :: ["LEFT"]))
    = (Some (generate_command "MOVE"), mkReceiver ["LEFT"])
  /\ forall rc, fst (recv rc) = None <-> _commands rc = [].
Proof. apply (recv_line "MOVE" ["LEFT"]). reflexivity. Defined.

(** ** The application *)

(** X16: [create_robot] raises [RuntimeError] exactly when the grid or the
    command receiver has not been added; otherwise it returns an unplaced
    robot on the grid that was added, with the receiver that was added. *)
Theorem create_robot_spec (f : SimpleRobotOnGridFactory.t) :
  (SimpleRobotOnGridFactory.create_robot f = Raise RuntimeError
   <-> SimpleRobotOnGridFactory._grid f = None
       \/ SimpleRobotOnGridFactory._command_receiver f = None)
  /\ (forall g rc, SimpleRobotOnGridFactory._grid f = Some g ->
        SimpleRobotOnGridFactory._command_receiver f = Some rc ->
        SimpleRobotOnGridFactory.create_robot f = Ok (mkRobot None None g, rc)).
Proof.
  unfold SimpleRobotOnGridFactory.create_robot.
  destruct (SimpleRobotOnGridFactory._grid f) as [g|],
    (SimpleRobotOnGridFactory._command_receiver f) as [rc|]; split;
    try (split; [discriminate | intros [?|?]; discriminate]);
    try (split; auto; fail);
    try (intros ? ? ? ?; simplify_eq; reflexivity);
    try (intros ? ? ?; discriminate).
Qed.

(** X17: the program started with any number of arguments other than one
    raises [RuntimeError]. Started with one argument, it ends with the
    exception that opening or reading the file raises, if one is raised;
    when the file has been read, it ends without an exception whatever the
    lines are, with the robot unplaced or on a cell of the 5 by 5 grid. *)
Theorem robot_app_runs (argv : list string) (read : result (list string)) :
  (length argv <> 2%nat -> robot_app argv read = Raise RuntimeError)
  /\ (length argv = 2%nat ->
      forall e, read = Raise e -> robot_app argv read = Raise e)
  /\ (length argv = 2%nat ->
      forall lines, read = Ok lines ->
      exists robot, robot_app argv read = Ok robot /\ within 5 robot).
Proof.
  unfold robot_app.
  destruct (SquareGrid_init_linked 5) as (g & Hg & Hsize & Hl); [lia|].
  unfold SimpleRobotOnGridFactory.add_square_grid. rewrite Hg.
  cbn [mbind result_bind]. split; [|split].
  - intros Hlen. apply Nat.eqb_neq in Hlen. rewrite Hlen. reflexivity.
  - intros -> e ->. reflexivity.
  - intros -> lines ->.
    cbn [Nat.eqb length negb mbind result_bind StubFileCommandReceiver_init
         SimpleRobotOnGridFactory.add_stub_command_receiver
         SimpleRobotOnGridFactory.create_robot SimpleRobotOnGridFactory._grid
         SimpleRobotOnGridFactory._command_receiver
         SimpleRobotOnGridFactory._robot SimpleRobotOnGridFactory.__init__
         fst snd].
    unfold spin. cbn [_commands].
    destruct (spin_lines_within 5 lines (Robot_init g)) as (robot & Hrun & Hin);
      [lia | exact Hl | exact Hsize | left; split; reflexivity |].
    rewrite Hrun. exists robot. auto.
Qed.

(** ** Instances on the grid of one cell *)

Lemma turn_compositions_witness :
  let robot := mkRobot (Some (mkCoordinates 0 0)) (Some NORTH)
                 (SquareGrid.mk 1 [[Cell.__init__ 0 0]]) in
  let turn r rb := fst (execute (TurnRobotCommand r) rb) in
  is_on_grid robot = true
  /\ turn RIGHT (turn LEFT robot) = robot
  /\ turn LEFT (turn RIGHT robot) = robot
  /\ turn RIGHT (turn RIGHT (turn RIGHT (turn RIGHT robot))) = robot.
Proof.
  cbv zeta. split; [reflexivity|].
  apply (turn_compositions
           (mkRobot (Some (mkCoordinates 0 0)) (Some NORTH)
              (SquareGrid.mk 1 [[Cell.__init__ 0 0]]))).
  reflexivity.
Defined.

Lemma spin_lines_skip_nop_witness :
  let robot := Robot_init (SquareGrid.mk 1 [[Cell.__init__ 0 0]]) in
  generate_command (strip newline "JUMP") = NopRobotCommand
  /\ spin_lines (["PLACE 0,0,EAST"] ++ "JUMP" :: ["LEFT"]) robot
     = spin_lines (["PLACE 0,0,EAST"] ++ ["LEFT"]) robot.
Proof.
  cbv zeta.
  assert (Hnop : generate_command (strip newline "JUMP") = NopRobotCommand)
    by (vm_compute; reflexivity).
  split; [exact Hnop|].
  exact (spin_lines_skip_nop ["PLACE 0,0,EAST"] ["LEFT"] "JUMP"
           (Robot_init (SquareGrid.mk 1 [[Cell.__init__ 0 0]])) Hnop).
Defined.

Lemma spin_lines_before_placement_witness :
  let robot := Robot_init (SquareGrid.mk 1 [[Cell.__init__ 0 0]]) in
  is_on_grid robot = false
  /\ spin_lines ["MOVE"; "PLACE 9,9,NORTH"; "REPORT"] robot = (robot, Ok tt).
Proof.
  cbv zeta. split; [reflexivity|].
  apply (spin_lines_before_placement ["MOVE"; "PLACE 9,9,NORTH"; "REPORT"]
           (Robot_init (SquareGrid.mk 1 [[Cell.__init__ 0 0]]))).
  - reflexivity.
  - repeat constructor; intros c d Hc; vm_compute in Hc; try discriminate.
    injection Hc as <- _. reflexivity.
Defined.
